(** * DarkCurse: the game-economy calculations of the user model

    A shallow embedding of [src/models/user.ts], of the tables of
    [src/constants] it reads, and of the overview controller
    [src/controllers/main/overview.ts].

    Conventions of the embedding.
    - A JavaScript [number] the program computes with ([gold],
      [goldInBank], the [quantity] of a unit, and what the getters and
      methods derive from them) is a binary64 double, a [spec_float] of
      [SpecFloat], and [+], [-], [*] and [/] are that library's [SFadd],
      [SFsub], [SFmul] and [SFdiv].  An integer constant or field enters a
      computation through [Double.of_Z].
    - A [number] the program only compares or uses as a key (ids, the
      levels, the fortification level) is an integer of [Z]; so are the
      hit points, which enter the one division through [Double.of_Z], and
      the experience, which is subtracted from a threshold only when it
      lies between 0 and that threshold.
    - A [PlayerUnit] is a mutable object: arrays hold references ([loc])
      into a store ([heap]), and a write through one reference is seen
      through every other.
    - A [TypeError] (a property read on [undefined]) is the [None] of an
      [option].
    - The DAO layer is not part of the model; the calls made to it are
      recorded in a log. *)

From Stdlib Require Import ZArith SpecFloat QArith_base Qround.
From stdpp Require Import gmap strings list fin_maps.

Local Open Scope Z_scope.

(** ** JavaScript numbers *)

(** The result of an operation that can leave the integers. *)
Inductive number :=
  | Num (z : Z)
  | NaN
  | Infinity (negative : bool).

Module Double.
Definition prec : Z := 53.
Definition emax : Z := 1024.

(** The double nearest to an integer (exact below 2^53). *)
Definition of_Z (z : Z) : spec_float := binary_normalize prec emax z 0 false.

Definition add : spec_float -> spec_float -> spec_float := SFadd prec emax.
Definition sub : spec_float -> spec_float -> spec_float := SFsub prec emax.
Definition div : spec_float -> spec_float -> spec_float := SFdiv prec emax.
Definition mul : spec_float -> spec_float -> spec_float := SFmul prec emax.

(** [Math.floor]: the value of a finite double is [(-1)^s * m * 2^e]. *)
Definition floor (x : spec_float) : number :=
  match x with
  | S754_zero _ => Num 0
  | S754_infinity s => Infinity s
  | S754_nan => NaN
  | S754_finite s m e =>
      let m' := if s then Z.neg m else Z.pos m in
      Num (if decide (0 <= e) then m' * 2 ^ e else m' `div` 2 ^ (- e))
  end.

Definition of_number (n : number) : spec_float :=
  match n with
  | Num z => of_Z z
  | NaN => S754_nan
  | Infinity s => S754_infinity s
  end.

(** The integer a double is, when it is one. *)
Definition to_Z (x : spec_float) : option Z :=
  match x with
  | S754_zero _ => Some 0
  | S754_finite s m e =>
      let m' := if s then Z.neg m else Z.pos m in
      if decide (0 <= e) then Some (m' * 2 ^ e)
      else if decide (m' `mod` 2 ^ (- e) = 0) then Some (m' `div` 2 ^ (- e))
      else None
  | _ => None
  end.

(** The same, with 0 for a double that is no integer. *)
Definition value (x : spec_float) : Z := default 0 (to_Z x).

(** The integers of magnitude at most 2^53: every one of them is a double,
    and a sum, difference or product of two of them that is one of them
    again is computed without rounding. *)
Definition safe (z : Z) : Prop := - 2 ^ 53 <= z <= 2 ^ 53.

(** [x] is the double of a safe integer. *)
Definition exact (x : spec_float) : Prop :=
  x = of_Z (value x) ∧ safe (value x).

(** [m * 2^e], scaled by [2^2000]: an integer for every exponent a double
    can have. *)
Definition scaled (m e : Z) : Z := m * 2 ^ (e + 2000).
End Double.

#[global] Instance spec_float_eq_dec : EqDecision spec_float.
Proof. solve_decision. Defined.

(** ** Records of [types/typings] and [daos/user] *)

Module PlayerUnit.
Record t := mk { type : string; level : Z; quantity : spec_float }.

(** [unit.quantity = q] *)
Definition set_quantity (q : spec_float) (unit : t) : t :=
  {| type := type unit; level := level unit; quantity := q |}.

(** The number of units the entry stands for. *)
Definition count (unit : t) : Z := Double.value (quantity unit).

#[global] Instance eq_dec : EqDecision t.
Proof. solve_decision. Defined.

#[global] Instance inhabited : Inhabited t :=
  populate (mk "" 0 (Double.of_Z 0)).
End PlayerUnit.

Module Unit.
Record t := mk
  { name : string; type : string; level : Z; bonus : Z; cost : Z }.
End Unit.

Module Fortification.
Record t := mk
  { name : string;
    levelRequirement : Z;
    hitpoints : Z;
    costPerRepairPoint : Z;
    goldPerTurn : Z;
    defenseBonusPercentage : Z;
    cost : Z }.
End Fortification.

Module FortHealth.
Record t := mk { current : Z; max : Z; percentage : number }.
End FortHealth.

(** References to [PlayerUnit] objects, and the store they point into.
    The store is total: the program never holds a dangling reference, and
    what it holds at the locations no array mentions is never read. *)
Abbreviation loc := nat.
Definition heap := loc -> PlayerUnit.t.

(** The store in which the objects of a list sit at consecutive
    locations. *)
Definition storeOf (objects : list PlayerUnit.t) : heap :=
  fun l => objects !!! l.

Module UserData.
Record t := mk
  { id : Z;
    displayName : string;
    email : string;
    passwordHash : string;
    race : string;
    class : string;
    experience : Z;
    gold : spec_float;
    goldInBank : spec_float;
    fortLevel : Z;
    fortHitpoints : Z;
    attackTurns : Z;
    units : list loc }.
End UserData.

(** Of a bank-history entry, the fields the user model reads. *)
Module BankHistory.
Record t := mk
  { fromUserId : Z;
    fromUserAccount : string;
    historyType : string }.
End BankHistory.

(** ** The tables of [src/constants] *)

Definition Fortifications : gmap Z Fortification.t :=
  list_to_map
    [ (1, Fortification.mk "Manor" 0 50 0 1000 0 0);
      (2, Fortification.mk "Village" 5 100 15 2000 5 100000);
      (3, Fortification.mk "Town" 10 200 35 3000 10 250000);
      (4, Fortification.mk "Outpost" 15 300 75 4000 15 500000);
      (5, Fortification.mk "Outpost Level 2" 20 500 125 5000 20 1000000);
      (6, Fortification.mk "Outpost Level 3" 25 750 225 6000 25 2000000);
      (7, Fortification.mk "Stronghold" 30 1000 325 7000 30 3000000);
      (8, Fortification.mk "Stronghold Level 2" 35 1500 450 8000 35 4000000);
      (9, Fortification.mk "Stronghold Level 3" 40 2000 550 9000 40 5000000);
      (10, Fortification.mk "Fortress" 45 2500 675 10000 45 7500000);
      (11, Fortification.mk "Fortress Level 2" 50 3000 750 11000 50 10000000);
      (12, Fortification.mk "Fortress Level 3" 55 3500 875 12000 55 15000000);
      (13, Fortification.mk "Citadel" 60 4000 1150 13000 60 20000000);
      (14, Fortification.mk "Citadel Level 2" 65 4500 1550 14000 65 30000000);
      (15, Fortification.mk "Citadel Level 3" 70 5000 1850 15000 70 40000000);
      (16, Fortification.mk "Castle" 75 5500 2100 16000 75 50000000);
      (17, Fortification.mk "Castle Level 2" 80 6000 2900 17000 80 75000000);
      (18, Fortification.mk "Castle Level 3" 85 6500 3600 18000 85 100000000);
      (19, Fortification.mk "Kingdom" 90 7000 5000 19000 90 150000000);
      (20, Fortification.mk "Kingdom Level 2" 95 7500 6750 20000 95 200000000);
      (21, Fortification.mk "Kingdom Level 3" 100 8000 7500 21000 100 250000000);
      (22, Fortification.mk "Empire" 105 8500 8250 22000 105 300000000);
      (23, Fortification.mk "Empire Level 2" 110 9000 9000 23000 110 350000000);
      (24, Fortification.mk "Empire Level 3" 115 9500 9750 24000 115 400000000) ].

(** [Levels] maps a level to its experience threshold.  It is kept as the
    list of its entries in the order [Object.entries] enumerates them
    (integer keys, ascending). *)
Definition Levels : list (Z * Z) :=
  [ (1, 0); (2, 200); (3, 500); (4, 1000) ].

Definition UnitTypes : list Unit.t :=
  [ Unit.mk "Worker" "WORKER" 1 65 2000;
    Unit.mk "Soldier" "OFFENSE" 1 3 1500;
    Unit.mk "Knight" "OFFENSE" 2 20 10000;
    Unit.mk "Berserker" "OFFENSE" 3 50 25000;
    Unit.mk "Guard" "DEFENSE" 1 3 1500;
    Unit.mk "Archer" "DEFENSE" 2 20 10000;
    Unit.mk "Royal Guard" "DEFENSE" 3 50 25000;
    Unit.mk "Spy" "SPY" 1 3 1500;
    Unit.mk "Infiltrator" "SPY" 2 20 10000;
    Unit.mk "Assassin" "SPY" 3 50 25000;
    Unit.mk "Sentry" "SENTRY" 1 3 1500;
    Unit.mk "Sentinel" "SENTRY" 2 20 10000;
    Unit.mk "Inquisitor" "SENTRY" 3 50 25000 ].

(** ** Array and object primitives *)

(** [arr.find(p)]: the first element satisfying [p], [None] for
    [undefined]. *)
Definition Array_find {A} (P : A -> Prop) `{!forall x, Decision (P x)}
    (arr : list A) : option A :=
  snd <$> list_find P arr.

(** [arr.sort(cmp)]: a stable insertion sort; [x] goes before [y] when
    [cmp x y <= 0]. *)
Fixpoint insert_by (cmp : Z -> Z -> Z) (x : Z) (l : list Z) : list Z :=
  match l with
  | [] => [x]
  | y :: l' =>
      if decide (cmp x y <= 0) then x :: y :: l' else y :: insert_by cmp x l'
  end.

Definition Array_sort (cmp : Z -> Z -> Z) (arr : list Z) : list Z :=
  foldr (insert_by cmp) [] arr.

(** [Object.assign(target, source)] on two arrays: every index of
    [source] is written into [target], which keeps its own elements only
    past the end of [source]. *)
Definition Object_assign {A} (target source : list A) : list A :=
  source ++ drop (length source) target.

(** [Levels[k]] *)
Definition Levels_get (k : Z) : option Z :=
  snd <$> Array_find (fun entry : Z * Z => entry.1 = k) Levels.

(** ** The DAO layer, seen from the model *)

Inductive DaoCall :=
  | SetGold (id : Z) (gold : spec_float)
  | SetBankedGold (id : Z) (goldInBank : spec_float)
  | SetUnits (id : Z) (units : list loc).

(** ** [src/models/user.ts] *)

Module UserModel.

(** The public fields.  The three private handles ([modelFactory],
    [daoFactory], [logger]) hold no data of the user; what the methods do
    through them is the DAO log of [state] and the parameters of the
    fetches.  [validatePassword] only calls bcrypt and is left out. *)
Record t := mk
  { id : Z;
    displayName : string;
    email : string;
    passwordHash : string;
    race : string;
    class : string;
    experience : Z;
    gold : spec_float;
    goldInBank : spec_float;
    fortLevel : Z;
    fortHitpoints : Z;
    attackTurns : Z;
    units : list loc }.

(** The constructor copies the thirteen fields of the record it is given;
    [units] is copied as a reference, so the model shares the unit objects
    of [userData]. *)
Definition new (userData : UserData.t) : t :=
  {| id := UserData.id userData;
     displayName := UserData.displayName userData;
     email := UserData.email userData;
     passwordHash := UserData.passwordHash userData;
     race := UserData.race userData;
     class := UserData.class userData;
     experience := UserData.experience userData;
     gold := UserData.gold userData;
     goldInBank := UserData.goldInBank userData;
     fortLevel := UserData.fortLevel userData;
     fortHitpoints := UserData.fortHitpoints userData;
     attackTurns := UserData.attackTurns userData;
     units := UserData.units userData |}.

Definition set_gold (g : spec_float) (this : t) : t :=
  {| id := id this; displayName := displayName this; email := email this;
     passwordHash := passwordHash this; race := race this;
     class := class this; experience := experience this;
     gold := g;
     goldInBank := goldInBank this; fortLevel := fortLevel this;
     fortHitpoints := fortHitpoints this; attackTurns := attackTurns this;
     units := units this |}.

Definition set_goldInBank (g : spec_float) (this : t) : t :=
  {| id := id this; displayName := displayName this; email := email this;
     passwordHash := passwordHash this; race := race this;
     class := class this; experience := experience this;
     gold := gold this;
     goldInBank := g;
     fortLevel := fortLevel this;
     fortHitpoints := fortHitpoints this; attackTurns := attackTurns this;
     units := units this |}.

Definition set_units (us : list loc) (this : t) : t :=
  {| id := id this; displayName := displayName this; email := email this;
     passwordHash := passwordHash this; race := race this;
     class := class this; experience := experience this;
     gold := gold this; goldInBank := goldInBank this;
     fortLevel := fortLevel this;
     fortHitpoints := fortHitpoints this; attackTurns := attackTurns this;
     units := us |}.

(** *** Getters: they read the store and the fields, and write nothing *)

Section Getters.
Variable σ : heap.
Variable this : t.

Definition population : spec_float :=
  fold_left (fun acc unit => Double.add acc (PlayerUnit.quantity (σ unit)))
    (units this) (Double.of_Z 0).

Definition armySize : spec_float :=
  fold_left (fun acc unit => Double.add acc (PlayerUnit.quantity (σ unit)))
    (filter (fun unit => PlayerUnit.type (σ unit) ≠ "CITIZEN"
                         ∧ PlayerUnit.type (σ unit) ≠ "WORKER") (units this))
    (Double.of_Z 0).

Definition citizens : option spec_float :=
  unit ← Array_find (fun unit => PlayerUnit.type (σ unit) = "CITIZEN")
           (units this);
  Some (PlayerUnit.quantity (σ unit)).

Definition goldPerTurn : option spec_float :=
  let workerUnits :=
    filter (fun units => PlayerUnit.type (σ units) = "WORKER") (units this) in
  golds ← mapM
    (fun unit =>
       unitType ← Array_find
         (fun unitType =>
            Unit.type unitType = PlayerUnit.type (σ unit)
            ∧ Unit.level unitType = PlayerUnit.level (σ unit))
         UnitTypes;
       Some (Double.mul (Double.of_Z (Unit.bonus unitType))
               (PlayerUnit.quantity (σ unit))))
    workerUnits;
  let workerGoldPerTurn :=
    fold_left (fun acc gold => Double.add acc gold) golds (Double.of_Z 0) in
  fortification ← Fortifications !! fortLevel this;
  let fortificationGoldPerTurn :=
    Double.of_Z (Fortification.goldPerTurn fortification) in
  Some (Double.add workerGoldPerTurn fortificationGoldPerTurn).

Definition offense : Z := 0.

Definition level : option Z :=
  if decide (experience this = 0) then Some 1 else
  let possibleLevels :=
    Array_sort (fun a b => b - a)
      (filter (fun levelXp => experience this > levelXp) (Levels.*2)) in
  let xpOfCurrentLevel := head possibleLevels in
  entry ← Array_find (fun entry : Z * Z => Some entry.2 = xpOfCurrentLevel)
            Levels;
  Some entry.1.

Definition xpToNextLevel : option number :=
  currentLevel ← level;
  Some match Levels_get (currentLevel + 1) with
       | Some nextLevelXP => Num (nextLevelXP - experience this)
       | None => NaN
       end.

Definition fortHealth : option FortHealth.t :=
  fortification ← Fortifications !! fortLevel this;
  Some {| FortHealth.current := fortHitpoints this;
          FortHealth.max := Fortification.hitpoints fortification;
          FortHealth.percentage :=
            Double.floor
              (Double.mul
                 (Double.div
                    (Double.of_Z (fortHitpoints this))
                    (Double.of_Z (Fortification.hitpoints fortification)))
                 (Double.of_Z 100)) |}.

Definition availableUnitTypes : list Unit.t :=
  filter (fun unitType => Unit.level unitType = 1) UnitTypes.

Definition maximumBankDeposits : Z := 1.

(** [depositsUsed] is what the bank-history model returns for the last
    twenty-four hours. *)
Definition fetchAvailableBankDeposits (depositsUsed : list BankHistory.t) : Z :=
  let bankingActions :=
    filter
      (fun history =>
         BankHistory.fromUserId history = id this
         ∧ BankHistory.fromUserAccount history = "HAND"
         ∧ BankHistory.historyType history = "PLAYER_TRANSFER")
      depositsUsed in
  maximumBankDeposits - Z.of_nat (length bankingActions).

End Getters.

(** *** Methods: they change [this], the unit objects, and call the DAO *)

Record state := mkState
  { self : t;
    objects : heap;
    daoCalls : list DaoCall }.

Definition addGold (amount : spec_float) (s : state) : state :=
  let this := set_gold (Double.add (gold (self s)) amount) (self s) in
  {| self := this;
     objects := objects s;
     daoCalls := daoCalls s ++ [SetGold (id this) (gold this)] |}.

Definition subtractGold (amount : spec_float) (s : state) : state :=
  let this := set_gold (Double.sub (gold (self s)) amount) (self s) in
  {| self := this;
     objects := objects s;
     daoCalls := daoCalls s ++ [SetGold (id this) (gold this)] |}.

Definition addBankedGold (amount : spec_float) (s : state) : state :=
  let this :=
    set_goldInBank (Double.add (goldInBank (self s)) amount) (self s) in
  {| self := this;
     objects := objects s;
     daoCalls := daoCalls s ++ [SetBankedGold (id this) (goldInBank this)] |}.

Definition subtractBankedGold (amount : spec_float) (s : state) : state :=
  let this :=
    set_goldInBank (Double.sub (goldInBank (self s)) amount) (self s) in
  {| self := this;
     objects := objects s;
     daoCalls := daoCalls s ++ [SetBankedGold (id this) (goldInBank this)] |}.

(** [newUnit.type === unit.type && newUnit.level === unit.level] *)
Definition sameKind (a b : PlayerUnit.t) : Prop :=
  PlayerUnit.type a = PlayerUnit.type b
  ∧ PlayerUnit.level a = PlayerUnit.level b.

#[global] Instance sameKind_dec a b : Decision (sameKind a b).
Proof. unfold sameKind. apply _. Defined.

(** [unit.quantity = q], through the reference [unit] *)
Definition write_quantity (unit : loc) (q : spec_float) (σ : heap) : heap :=
  fun l => if decide (l = unit) then PlayerUnit.set_quantity q (σ unit) else σ l.

(** The [forEach] over [unitsToUpdate]: each callback reads the store the
    previous ones have left. *)
Fixpoint updateExisting (newUnits unitsToUpdate : list loc) (σ : heap)
    : option heap :=
  match unitsToUpdate with
  | [] => Some σ
  | unit :: rest =>
      newUnit ← Array_find (fun newUnit => sameKind (σ newUnit) (σ unit))
                  newUnits;
      updateExisting newUnits rest
        (write_quantity unit
           (Double.add (PlayerUnit.quantity (σ unit))
              (PlayerUnit.quantity (σ newUnit))) σ)
  end.

Definition trainNewUnits (newUnits : list loc) (s : state) : option state :=
  let σ := objects s in
  let this := self s in
  (* Subtract Citizens *)
  let totalNewUnits :=
    fold_left (fun acc unit => Double.add acc (PlayerUnit.quantity (σ unit)))
      newUnits (Double.of_Z 0) in
  citizenUnits ← Array_find
    (fun unit => PlayerUnit.type (σ unit) = "CITIZEN") (units this);
  let σ :=
    write_quantity citizenUnits
      (Double.sub (PlayerUnit.quantity (σ citizenUnits)) totalNewUnits) σ in
  (* Update existing units *)
  let unitsToUpdate :=
    filter
      (fun unit =>
         is_Some (Array_find (fun newUnit => sameKind (σ newUnit) (σ unit))
                    newUnits))
      (units this) in
  σ ← updateExisting newUnits unitsToUpdate σ;
  let this := set_units (Object_assign unitsToUpdate (units this)) this in
  (* Add new units *)
  let newUnitsToAdd :=
    filter
      (fun newUnit =>
         ¬ is_Some (Array_find (fun unit => sameKind (σ unit) (σ newUnit))
                      (units this)))
      newUnits in
  let this := set_units (units this ++ newUnitsToAdd) this in
  Some {| self := this;
          objects := σ;
          daoCalls := daoCalls s ++ [SetUnits (id this) (units this)] |}.

(** *** Static constructors over the user DAO *)

Section Fetch.
Variable daoFetchById : Z -> option UserData.t.
Variable daoFetchByEmail : string -> option UserData.t.
Variable daoFetchAll : list UserData.t.

Definition fetchById (id : Z) : option t :=
  match daoFetchById id with
  | None => None
  | Some user => Some (new user)
  end.

Definition fetchByEmail (email : string) : option t :=
  match daoFetchByEmail email with
  | None => None
  | Some user => Some (new user)
  end.

Definition fetchAll : list t := map new daoFetchAll.

End Fetch.

End UserModel.

(** ** [src/controllers/main/overview.ts] *)

Module Overview.

Record FortHealthView := mkFortHealthView
  { current : string; max : string; percentage : number }.

(** [{ won, total, percentage }] *)
Record Tally := mkTally { won : Z; total : Z; tallyPercentage : Z }.

Record Locals {SidebarData : Type} := mkLocals
  { layout : string;
    pageTitle : string;
    sidebarData : SidebarData;
    displayName : string;
    race : string;
    class : string;
    attackTurns : string;
    population : string;
    armySize : string;
    citizens : string;
    experience : string;
    level : string;
    xpToNextLevel : string;
    fortHealth : FortHealthView;
    gold : string;
    goldPerTurn : string;
    goldInBank : string;
    offense : Z;
    defense : Z;
    spyOffense : Z;
    spyDefense : Z;
    attacks : Tally;
    defends : Tally;
    spyVictories : Z;
    sentryVictories : Z }.
Arguments Locals : clear implicits.

Inductive Response {SidebarData : Type} :=
  | sendStatus (code : Z)
  | render (view : string) (options : Locals SidebarData).
Arguments Response : clear implicits.

Section Controller.
Context {SidebarData : Type}.
(** [req.daoFactory.user.fetchById], [req.sidebarData],
    [new Intl.NumberFormat('en-GB').format] and the store the fetched
    record points into. *)
Variable daoFetchById : Z -> option UserData.t.
Variable reqSidebarData : SidebarData.
Variable format : spec_float -> string.
Variable σ : heap.

(** [None] when a getter throws while the view's locals are built. *)
Definition overviewPage : option (Response SidebarData) :=
  match UserModel.fetchById daoFetchById 1 with
  | None => Some (sendStatus 404)
  | Some user =>
      let population := UserModel.population σ user in
      let armySize := UserModel.armySize σ user in
      citizens ← UserModel.citizens σ user;
      level ← UserModel.level user;
      xpToNextLevel ← UserModel.xpToNextLevel user;
      fortHealth ← UserModel.fortHealth user;
      goldPerTurn ← UserModel.goldPerTurn σ user;
      Some (render "page/main/overview"
        {| layout := "main";
           pageTitle := "Overview";
           sidebarData := reqSidebarData;
           displayName := UserModel.displayName user;
           race := UserModel.race user;
           class := UserModel.class user;
           attackTurns := format (Double.of_Z (UserModel.attackTurns user));
           population := format population;
           armySize := format armySize;
           citizens := format citizens;
           experience := format (Double.of_Z (UserModel.experience user));
           level := format (Double.of_Z level);
           xpToNextLevel := format (Double.of_number xpToNextLevel);
           fortHealth :=
             {| current := format (Double.of_Z (FortHealth.current fortHealth));
                max := format (Double.of_Z (FortHealth.max fortHealth));
                percentage := FortHealth.percentage fortHealth |};
           gold := format (UserModel.gold user);
           goldPerTurn := format goldPerTurn;
           goldInBank := format (UserModel.goldInBank user);
           offense := 0;
           defense := 0;
           spyOffense := 0;
           spyDefense := 0;
           attacks := mkTally 0 0 0;
           defends := mkTally 0 0 0;
           spyVictories := 0;
           sentryVictories := 0 |})
  end.

End Controller.

End Overview.

(** ** The user-profile controller of [src/controllers/main]

    [userProfileId] is the integer [Number(req.params.userId)] evaluates
    to.  [reqUser] is [req.user], of which the controller reads the
    [displayName] only: [None] when the request carries no user, and the
    read [req.user.displayName] throws. *)

Module UserProfile.

Record Locals {SidebarData : Type} := mkLocals
  { layout : string;
    pageTitle : string;
    sidebarData : SidebarData;
    displayName : string;
    race : string;
    class : string;
    level : Z;
    overallRank : Z;
    population : spec_float;
    armySize : spec_float;
    fortification : string;
    gold : string;
    bio : string }.
Arguments Locals : clear implicits.

Inductive Response {SidebarData : Type} :=
  | render (view : string) (options : Locals SidebarData).
Arguments Response : clear implicits.

Section Controller.
Context {SidebarData : Type}.
Variable daoFetchById : Z -> option UserData.t.
Variable reqUser : option string.
Variable reqSidebarData : SidebarData.
Variable format : spec_float -> string.
Variable σ : heap.

(** Neither [req.user] nor the fetched user is checked before it is read:
    [None] when one of them is missing, or when a getter or the
    [Fortifications] lookup throws.  The locals are evaluated in the order
    of the object literal, [pageTitle] before the fields of the profile. *)
Definition renderUserProfile (userProfileId : Z)
    : option (Response SidebarData) :=
  let userProfile := UserModel.fetchById daoFetchById userProfileId in
  reqUserDisplayName ← reqUser;
  userProfile ← userProfile;
  level ← UserModel.level userProfile;
  fortification ← Fortifications !! UserModel.fortLevel userProfile;
  Some (render "page/main/userProfile"
    {| layout := "main";
       pageTitle := "Profile " +:+ reqUserDisplayName;
       sidebarData := reqSidebarData;
       displayName := UserModel.displayName userProfile;
       race := UserModel.race userProfile;
       class := UserModel.class userProfile;
       level := level;
       overallRank := 0;
       population := UserModel.population σ userProfile;
       armySize := UserModel.armySize σ userProfile;
       fortification := Fortification.name fortification;
       gold := format (UserModel.gold userProfile);
       bio := "THIS IS A BIO" |}).

End Controller.

End UserProfile.

(** ** Sequences of gold operations *)

Inductive GoldOp :=
  | AddGold (amount : Z)
  | SubtractGold (amount : Z)
  | AddBankedGold (amount : Z)
  | SubtractBankedGold (amount : Z).

(** A call with an integer argument. *)
Definition applyGoldOp (s : UserModel.state) (op : GoldOp) : UserModel.state :=
  match op with
  | AddGold amount => UserModel.addGold (Double.of_Z amount) s
  | SubtractGold amount => UserModel.subtractGold (Double.of_Z amount) s
  | AddBankedGold amount => UserModel.addBankedGold (Double.of_Z amount) s
  | SubtractBankedGold amount =>
      UserModel.subtractBankedGold (Double.of_Z amount) s
  end.

(** The calls of [ops], awaited one after the other. *)
Definition runGoldOps (ops : list GoldOp) (s : UserModel.state)
    : UserModel.state :=
  foldl applyGoldOp s ops.

(** What an operation adds to the hand and to the bank. *)
Definition handDelta (op : GoldOp) : Z :=
  match op with
  | AddGold amount => amount
  | SubtractGold amount => - amount
  | _ => 0
  end.

Definition bankDelta (op : GoldOp) : Z :=
  match op with
  | AddBankedGold amount => amount
  | SubtractBankedGold amount => - amount
  | _ => 0
  end.

Definition amountOf (op : GoldOp) : Z :=
  match op with
  | AddGold amount | SubtractGold amount
  | AddBankedGold amount | SubtractBankedGold amount => amount
  end.

(** The balances [hand] and [bank], the amounts of [ops] and the balances
    after each of them are safe integers. *)
Fixpoint balancesSafe (hand bank : Z) (ops : list GoldOp) : Prop :=
  match ops with
  | [] => Double.safe hand ∧ Double.safe bank
  | op :: rest =>
      Double.safe hand ∧ Double.safe bank ∧ Double.safe (amountOf op)
      ∧ balancesSafe (hand + handDelta op) (bank + bankDelta op) rest
  end.

(** * What the specification says, in its own words

    The definitions of this part follow the sentences of the specification,
    not the code; the theorems below compare the two. *)

(** [lvl] is the greatest level of [Levels] whose threshold is at most
    [experience]. *)
Definition isLevelOf (experience lvl : Z) : Prop :=
  (∃ xp, (lvl, xp) ∈ Levels ∧ xp <= experience)
  ∧ ∀ lvl' xp', (lvl', xp') ∈ Levels → xp' <= experience → lvl' <= lvl.

(** The sum over the WORKER units of the matching [UnitTypes] entry's bonus
    times the unit's quantity; a unit of another type adds nothing. *)
Inductive WorkerGold : list PlayerUnit.t → Z → Prop :=
  | WorkerGold_nil : WorkerGold [] 0
  | WorkerGold_worker unit unitType rest gold :
      PlayerUnit.type unit = "WORKER" →
      unitType ∈ UnitTypes →
      Unit.type unitType = PlayerUnit.type unit →
      Unit.level unitType = PlayerUnit.level unit →
      WorkerGold rest gold →
      WorkerGold (unit :: rest)
        (Unit.bonus unitType * PlayerUnit.count unit + gold)
  | WorkerGold_other unit rest gold :
      PlayerUnit.type unit ≠ "WORKER" →
      WorkerGold rest gold →
      WorkerGold (unit :: rest) gold.

(** The floor of [current / max * 100], over the rationals. *)
Definition exactPercentage (current max : Z) : Z :=
  Qfloor (inject_Z current / inject_Z max * 100)%Q.

(** A transfer from the player's own hand. *)
Definition isOwnDeposit (this : UserModel.t) (history : BankHistory.t) : Prop :=
  BankHistory.fromUserId history = UserModel.id this
  ∧ BankHistory.fromUserAccount history = "HAND"
  ∧ BankHistory.historyType history = "PLAYER_TRANSFER".

#[global] Instance isOwnDeposit_dec this history :
  Decision (isOwnDeposit this history).
Proof. unfold isOwnDeposit. apply _. Defined.

Fixpoint countOwnDeposits (this : UserModel.t) (histories : list BankHistory.t)
    : Z :=
  match histories with
  | [] => 0
  | history :: rest =>
      (if decide (isOwnDeposit this history) then 1 else 0)
      + countOwnDeposits this rest
  end.

(** The public fields of a model against the record it was built from. *)
Definition sameFields (user : UserModel.t) (record : UserData.t) : Prop :=
  UserModel.id user = UserData.id record
  ∧ UserModel.displayName user = UserData.displayName record
  ∧ UserModel.email user = UserData.email record
  ∧ UserModel.passwordHash user = UserData.passwordHash record
  ∧ UserModel.race user = UserData.race record
  ∧ UserModel.class user = UserData.class record
  ∧ UserModel.experience user = UserData.experience record
  ∧ UserModel.gold user = UserData.gold record
  ∧ UserModel.goldInBank user = UserData.goldInBank record
  ∧ UserModel.fortLevel user = UserData.fortLevel record
  ∧ UserModel.fortHitpoints user = UserData.fortHitpoints record
  ∧ UserModel.attackTurns user = UserData.attackTurns record
  ∧ UserModel.units user = UserData.units record.

(** What a fetch owes to the DAO lookup it wraps. *)
Definition fetchedFrom (lookup : option UserData.t)
    (result : option UserModel.t) : Prop :=
  match lookup with
  | None => result = None
  | Some record => ∃ user, result = Some user ∧ sameFields user record
  end.



(** [goldPerTurn] returns the integer [gold]. *)
Definition returnsGold (σ : heap) (this : UserModel.t) (gold : Z) : Prop :=
  ∃ x, UserModel.goldPerTurn σ this = Some x ∧ Double.to_Z x = Some gold.

(** ** The merge of [trainNewUnits] *)

Definition totalQuantity (units : list PlayerUnit.t) : Z :=
  foldr (λ unit acc, PlayerUnit.count unit + acc) 0 units.



(** No two entries of the same type and level. *)
Definition distinctKinds (units : list PlayerUnit.t) : Prop :=
  ∀ i j a b,
    units !! i = Some a → units !! j = Some b → UserModel.sameKind a b → i = j.

(** ** What the code does to a trained unit *)

Definition kind (unit : PlayerUnit.t) : string * Z :=
  (PlayerUnit.type unit, PlayerUnit.level unit).

(** The entry of [newUnits] whose quantity the [forEach] adds to [unit]:
    the first of its type and level. *)
Definition matchOf (σ : heap) (newUnits : list loc) (unit : loc)
    : option loc :=
  Array_find (λ newUnit, UserModel.sameKind (σ newUnit) (σ unit)) newUnits.

(** [totalNewUnits] *)
Definition totalOf (σ : heap) (newUnits : list loc) : spec_float :=
  fold_left (λ acc unit, Double.add acc (PlayerUnit.quantity (σ unit)))
    newUnits (Double.of_Z 0).

(** The quantity of [unit] once the citizens are subtracted, and what the
    [forEach] makes of a quantity of [unit]. *)
Definition paid (σ : heap) (newUnits : list loc) (citizenUnits : loc)
    (unit : loc) : spec_float :=
  if decide (unit = citizenUnits)
  then Double.sub (PlayerUnit.quantity (σ unit)) (totalOf σ newUnits)
  else PlayerUnit.quantity (σ unit).

Definition gained (σ : heap) (newUnits : list loc) (unit : loc)
    (quantity : spec_float) : spec_float :=
  match matchOf σ newUnits unit with
  | Some newUnit => Double.add quantity (PlayerUnit.quantity (σ newUnit))
  | None => quantity
  end.

(** The object behind [unit] once [trainNewUnits] has run, in terms of the
    store it started from. *)
Definition trainedUnit (σ : heap) (newUnits : list loc) (citizenUnits : loc)
    (unit : loc) : PlayerUnit.t :=
  PlayerUnit.set_quantity
    (gained σ newUnits unit (paid σ newUnits citizenUnits unit)) (σ unit).

(** The same over the integers: what [unit] gains, and what it counts
    afterwards. *)
Definition increment (σ : heap) (newUnits : list loc) (unit : loc) : Z :=
  match matchOf σ newUnits unit with
  | Some newUnit => PlayerUnit.count (σ newUnit)
  | None => 0
  end.

Definition trainedCount (σ : heap) (newUnits : list loc) (citizenUnits : loc)
    (unit : loc) : Z :=
  PlayerUnit.count (σ unit)
  - (if decide (unit = citizenUnits)
     then totalQuantity (σ <$> newUnits) else 0)
  + increment σ newUnits unit.

(** ** Exact arithmetic *)

(** Every term and every running sum, from [acc] on, is a safe integer. *)
Fixpoint sumsSafe (acc : Z) (terms : list Z) : Prop :=
  match terms with
  | [] => Double.safe acc
  | term :: rest =>
      Double.safe acc ∧ Double.safe term ∧ sumsSafe (acc + term) rest
  end.

(** The bonus of the [UnitTypes] entry of the type and level of [unit]
    (0 when there is none), and the products [goldPerTurn] adds up: one
    for each WORKER unit, in the order of the units. *)
Definition bonusOf (unit : PlayerUnit.t) : Z :=
  default 0
    (Unit.bonus
     <$> Array_find
           (λ unitType, Unit.type unitType = PlayerUnit.type unit
                        ∧ Unit.level unitType = PlayerUnit.level unit)
           UnitTypes).

Definition workerTerms (units : list PlayerUnit.t) : list Z :=
  (λ unit, bonusOf unit * PlayerUnit.count unit)
  <$> filter (λ unit, PlayerUnit.type unit = "WORKER") units.

(** The quantity of the unit is the double of a safe integer. *)
Definition counted (unit : PlayerUnit.t) : Prop :=
  Double.exact (PlayerUnit.quantity unit).

(** ** Sample users and states *)

Definition exampleUser (experience fortLevel fortHitpoints : Z)
    (units : list loc) : UserModel.t :=
  UserModel.mk 1 "Moppler" "moppler@example.com" "$2b$10$hash" "HUMAN"
    "FIGHTER" experience (Double.of_Z 1000) (Double.of_Z 0) fortLevel
    fortHitpoints 50 units.

Definition exampleState (objects : list PlayerUnit.t) (units : list loc)
    : UserModel.state :=
  {| UserModel.self := exampleUser 0 1 50 units;
     UserModel.objects := storeOf objects;
     UserModel.daoCalls := [] |}.

(** The last day of user 1: a deposit from the hand, a transfer received
    from user 2, and a withdrawal from the bank. *)
Definition exampleDeposits : list BankHistory.t :=
  [ BankHistory.mk 1 "HAND" "PLAYER_TRANSFER";
    BankHistory.mk 2 "HAND" "PLAYER_TRANSFER";
    BankHistory.mk 1 "BANK" "PLAYER_TRANSFER" ].

(** Ten citizens, five workers and two knights. *)
Definition exampleStore : heap :=
  storeOf [ PlayerUnit.mk "CITIZEN" 1 (Double.of_Z 10);
            PlayerUnit.mk "WORKER" 1 (Double.of_Z 5);
            PlayerUnit.mk "OFFENSE" 2 (Double.of_Z 2) ].


(** Ten citizens and five workers; two and three more workers are requested
    as two entries (at locations 2 and 3). *)
Definition splitTraining : UserModel.state :=
  exampleState
    [ PlayerUnit.mk "CITIZEN" 1 (Double.of_Z 10);
      PlayerUnit.mk "WORKER" 1 (Double.of_Z 5);
      PlayerUnit.mk "WORKER" 1 (Double.of_Z 2);
      PlayerUnit.mk "WORKER" 1 (Double.of_Z 3) ]
    [0%nat; 1%nat].

(** Ten citizens and five workers; two workers and three soldiers are
    requested (at locations 2 and 3). *)
Definition plainTraining : UserModel.state :=
  exampleState
    [ PlayerUnit.mk "CITIZEN" 1 (Double.of_Z 10);
      PlayerUnit.mk "WORKER" 1 (Double.of_Z 5);
      PlayerUnit.mk "WORKER" 1 (Double.of_Z 2);
      PlayerUnit.mk "OFFENSE" 1 (Double.of_Z 3) ]
    [0%nat; 1%nat].

(** 2^52 workers of level 1. *)
Definition workersStore : heap :=
  storeOf [ PlayerUnit.mk "WORKER" 1 (Double.of_Z (2 ^ 52)) ].




(** Earn 250, bank 100, spend 1500. *)
Definition exampleOps : list GoldOp :=
  [AddGold 250; AddBankedGold 100; SubtractGold 1500].

(** ** Further vocabulary *)

(** A unit that [armySize] leaves out. *)
Definition isCivilian (unit : PlayerUnit.t) : Prop :=
  PlayerUnit.type unit = "CITIZEN" ∨ PlayerUnit.type unit = "WORKER".

#[global] Instance isCivilian_dec unit : Decision (isCivilian unit).
Proof. unfold isCivilian. apply _. Defined.

(** Every field but [units] agrees. *)
Definition sameButUnits (a b : UserModel.t) : Prop :=
  UserModel.id a = UserModel.id b
  ∧ UserModel.displayName a = UserModel.displayName b
  ∧ UserModel.email a = UserModel.email b
  ∧ UserModel.passwordHash a = UserModel.passwordHash b
  ∧ UserModel.race a = UserModel.race b
  ∧ UserModel.class a = UserModel.class b
  ∧ UserModel.experience a = UserModel.experience b
  ∧ UserModel.gold a = UserModel.gold b
  ∧ UserModel.goldInBank a = UserModel.goldInBank b
  ∧ UserModel.fortLevel a = UserModel.fortLevel b
  ∧ UserModel.fortHitpoints a = UserModel.fortHitpoints b
  ∧ UserModel.attackTurns a = UserModel.attackTurns b.

(** Every field but [gold] and [goldInBank] agrees. *)
Definition sameButBalances (a b : UserModel.t) : Prop :=
  UserModel.id a = UserModel.id b
  ∧ UserModel.displayName a = UserModel.displayName b
  ∧ UserModel.email a = UserModel.email b
  ∧ UserModel.passwordHash a = UserModel.passwordHash b
  ∧ UserModel.race a = UserModel.race b
  ∧ UserModel.class a = UserModel.class b
  ∧ UserModel.experience a = UserModel.experience b
  ∧ UserModel.fortLevel a = UserModel.fortLevel b
  ∧ UserModel.fortHitpoints a = UserModel.fortHitpoints b
  ∧ UserModel.attackTurns a = UserModel.attackTurns b
  ∧ UserModel.units a = UserModel.units b.

(** A record the overview page cannot be rendered from: a getter it calls
    throws. *)
Definition unrenderable (σ : heap) (user : UserModel.t) : Prop :=
  Forall (λ unit, PlayerUnit.type (σ unit) ≠ "CITIZEN") (UserModel.units user)
  ∨ UserModel.experience user < 0
  ∨ ¬ (1 <= UserModel.fortLevel user <= 24)
  ∨ Exists (λ unit, PlayerUnit.type (σ unit) = "WORKER"
                    ∧ PlayerUnit.level (σ unit) ≠ 1) (UserModel.units user).

(** Ten citizens, and twelve soldiers requested (at location 1). *)
Definition overdrawnTraining : UserModel.state :=
  exampleState
    [ PlayerUnit.mk "CITIZEN" 1 (Double.of_Z 10);
      PlayerUnit.mk "OFFENSE" 1 (Double.of_Z 12) ]
    [0%nat].

(** The store of [overdrawnTraining]. *)
Definition overdrawnStore : heap := UserModel.objects overdrawnTraining.

(** * Lemmas on the primitives *)

Section Array_find.
Context {A : Type} (P : A → Prop) `{!∀ x, Decision (P x)}.

Lemma Array_find_Some arr x :
  Array_find P arr = Some x →
  ∃ pre post, arr = pre ++ x :: post ∧ P x ∧ Forall (λ y, ¬ P y) pre.
Proof.
  unfold Array_find.
  destruct (list_find P arr) as [[i y]|] eqn:Hfind; [|done].
  intros [= <-]. apply list_find_Some in Hfind as (Hi & HP & Hbefore).
  exists (take i arr), (drop (S i) arr). split_and!; [|done|].
  - by rewrite take_drop_middle.
  - apply Forall_lookup. intros j z Hj.
    pose proof (lookup_lt_Some _ _ _ Hj) as Hlt. rewrite length_take in Hlt.
    rewrite lookup_take_lt in Hj by lia. apply (Hbefore j); [done | lia].
Qed.

Lemma Array_find_is_Some arr :
  is_Some (Array_find P arr) ↔ ∃ x, x ∈ arr ∧ P x.
Proof.
  unfold Array_find. rewrite fmap_is_Some. split.
  - intros [[i x] Hfind]. apply list_find_Some in Hfind as (Hi & HP & _).
    exists x. split; [by eapply list_elem_of_lookup_2 | done].
  - intros (x & Hin & HP). by eapply list_find_elem_of.
Qed.

Lemma Array_find_None arr :
  Array_find P arr = None ↔ Forall (λ x, ¬ P x) arr.
Proof. unfold Array_find. rewrite fmap_None. apply list_find_None. Qed.

Lemma Array_find_elem_of arr x : Array_find P arr = Some x → x ∈ arr ∧ P x.
Proof.
  intros (pre & post & -> & HP & _)%Array_find_Some. split; [|done].
  apply elem_of_app. right. left.
Qed.

Lemma Array_find_cons x arr :
  Array_find P (x :: arr) = if decide (P x) then Some x else Array_find P arr.
Proof.
  unfold Array_find. cbn. case_decide; [done|].
  by destruct (list_find P arr) as [[]|].
Qed.

Lemma Array_find_ext (Q : A → Prop) `{!∀ x, Decision (Q x)} arr :
  (∀ x, P x ↔ Q x) → Array_find P arr = Array_find Q arr.
Proof. intros HPQ. unfold Array_find. by rewrite (list_find_ext P Q). Qed.

End Array_find.

Lemma Object_assign_shorter {A} (target source : list A) :
  (length target ≤ length source)%nat → Object_assign target source = source.
Proof.
  intros Hlen. unfold Object_assign. rewrite drop_ge by done. apply app_nil_r.
Qed.

(** * Binary64 arithmetic on safe integers *)

Section Exact.
Import Double.

Lemma digits2_pos_size p : digits2_pos p = Pos.size p.
Proof. induction p; simpl; congruence. Qed.

Lemma Zdigits2_log2 m : 0 < m → Zdigits2 m = Z.log2 m + 1.
Proof.
  destruct m as [|p|p]; [lia| |lia]. intros _.
  destruct p; simpl; rewrite ?digits2_pos_size; lia.
Qed.

Lemma Zdigits2_scaled m e m' e' :
  0 < m → 0 < m' → -2000 <= e → -2000 <= e' →
  scaled m e = scaled m' e' → Zdigits2 m + e = Zdigits2 m' + e'.
Proof.
  unfold scaled. intros Hm Hm' He He' Heq.
  rewrite !Zdigits2_log2 by done.
  apply (f_equal Z.log2) in Heq.
  rewrite !Z.log2_mul_pow2 in Heq by lia. lia.
Qed.

Lemma scaled_le m e c E :
  -2000 <= e <= E → scaled c E = scaled m e → m = c * 2 ^ (E - e).
Proof.
  unfold scaled. intros He Heq.
  replace (E + 2000) with ((E - e) + (e + 2000)) in Heq by lia.
  rewrite Z.pow_add_r, Z.mul_assoc in Heq by lia.
  apply Z.mul_cancel_r in Heq; [done|]. apply Z.pow_nonzero; lia.
Qed.

Lemma iter_pos_nat {A} (f : A → A) p x :
  SpecFloat.iter_pos f p x = Nat.iter (Pos.to_nat p) f x.
Proof.
  revert x. induction p as [p IH|p IH|]; intros x; cbn [SpecFloat.iter_pos].
  - rewrite !IH, Pos2Nat.inj_xI, <- Nat.iter_add, <- Nat.iter_succ_r.
    f_equal. lia.
  - rewrite !IH, Pos2Nat.inj_xO, <- Nat.iter_add. f_equal. lia.
  - done.
Qed.

Lemma shr_1_double m :
  0 < m →
  shr_1 (Build_shr_record (2 * m) false false) = Build_shr_record m false false.
Proof. destruct m; [lia|done|lia]. Qed.

Lemma shr_exact n c :
  0 < c →
  Nat.iter n shr_1 (Build_shr_record (c * 2 ^ Z.of_nat n) false false)
  = Build_shr_record c false false.
Proof.
  intros Hc. induction n as [|n IH].
  - simpl. f_equal. lia.
  - rewrite Nat.iter_succ_r.
    replace (c * 2 ^ Z.of_nat (S n)) with (2 * (c * 2 ^ Z.of_nat n))
      by (rewrite Nat2Z.inj_succ, Z.pow_succ_r by lia; lia).
    rewrite shr_1_double; [done|].
    apply Z.mul_pos_pos; [done|]. apply Z.pow_pos_nonneg; lia.
Qed.

Lemma Pos_iter_xO m d : Z.pos (Pos.iter xO m d) = Z.pos m * 2 ^ Z.pos d.
Proof.
  rewrite (Pos.iter_swap_gen _ _ Z.pos xO (Z.mul 2)) by done.
  change (Pos.iter (Z.mul 2) (Z.pos m) d) with (Z.shiftl (Z.pos m) (Z.pos d)).
  apply Z.shiftl_mul_pow2. lia.
Qed.

Lemma shl_align_fst m e e' :
  e' <= e → Z.pos (fst (shl_align m e e')) = Z.pos m * 2 ^ (e - e').
Proof.
  intros He. unfold shl_align.
  destruct (e' - e) as [|d|d] eqn:Hd; simpl.
  - replace (e - e') with 0 by lia. lia.
  - lia.
  - rewrite Pos_iter_xO. f_equal. f_equal. lia.
Qed.

Lemma binary_round_aux_exact s m e c E :
  E = fexp prec emax (Zdigits2 (Z.pos m) + e) →
  -2000 <= e <= E → E <= emax - prec →
  scaled (Z.pos c) E = scaled (Z.pos m) e →
  binary_round_aux prec emax s (Z.pos m) e loc_Exact = S754_finite s c E.
Proof.
  intros HE0 He HE Heq.
  assert (Zdigits2 (Z.pos c) + E = Zdigits2 (Z.pos m) + e) as Hd
    by (apply Zdigits2_scaled; [lia..|done]).
  apply scaled_le in Heq; [|done].
  apply Z.leb_le in HE.
  unfold binary_round_aux, shr_fexp. rewrite <- HE0.
  unfold shr_record_of_loc, shr.
  destruct (E - e) as [|n|n] eqn:Hn; [| |lia].
  - assert (e = E) as -> by lia. rewrite Z.mul_1_r in Heq. injection Heq as ->.
    cbn [shr_m loc_of_shr_record round_nearest_even].
    rewrite <- HE0, Z.sub_diag.
    cbn [shr_m]. rewrite HE. done.
  - rewrite iter_pos_nat, Heq, <- (positive_nat_Z n), shr_exact by lia.
    cbn [shr_m loc_of_shr_record round_nearest_even].
    rewrite positive_nat_Z.
    replace (e + Z.pos n) with E by lia. rewrite Hd, <- HE0, Z.sub_diag.
    cbn [shr_m]. rewrite HE. done.
Qed.

Lemma binary_round_exact s m e c E :
  E = fexp prec emax (Zdigits2 (Z.pos m) + e) →
  -2000 <= e → E <= emax - prec →
  scaled (Z.pos c) E = scaled (Z.pos m) e →
  binary_round prec emax s m e = S754_finite s c E.
Proof.
  intros HE0 He HE Heq.
  assert (-2000 <= E) as HE' by (rewrite HE0; unfold fexp, emin, prec, emax; lia).
  unfold binary_round. change (Z.pos (digits2_pos m)) with (Zdigits2 (Z.pos m)).
  rewrite <- HE0.
  destruct (decide (e <= E)) as [Hle|Hlt].
  - unfold shl_align. destruct (E - e) as [|n|n] eqn:Hn; [| |lia];
      (apply binary_round_aux_exact; [done|lia|done|done]).
  - assert (Z.pos (fst (shl_align m e E)) = Z.pos c) as Hc.
    { rewrite shl_align_fst by lia. symmetry. apply scaled_le; [lia|done]. }
    unfold shl_align in *. destruct (E - e) as [|n|n] eqn:Hn; [lia|lia|].
    cbn [fst] in Hc. rewrite Hc.
    apply binary_round_aux_exact; [|lia|done|done].
    rewrite HE0 at 1. f_equal. apply Zdigits2_scaled; [lia..|done].
Qed.

Lemma fexp_safe z :
  0 < z <= 2 ^ 53 → fexp prec emax (Zdigits2 z) = Z.log2 z - 52.
Proof.
  intros Hz. rewrite Zdigits2_log2 by lia.
  pose proof (Z.log2_nonneg z). unfold fexp, emin, prec, emax. lia.
Qed.

Lemma of_Z_round z :
  z ≠ 0 →
  of_Z z = binary_round prec emax (bool_decide (z < 0)) (Z.to_pos (Z.abs z)) 0.
Proof. by destruct z. Qed.

(** The mantissa and the exponent of the double of a safe integer. *)
Lemma canonical_exists z :
  0 < z <= 2 ^ 53 →
  ∃ c, scaled (Z.pos c) (fexp prec emax (Zdigits2 z)) = scaled z 0
       ∧ -52 <= fexp prec emax (Zdigits2 z) <= 1.
Proof.
  intros Hz. rewrite Zdigits2_log2 by lia.
  assert (0 <= Z.log2 z <= 53) as Hlog.
  { split; [apply Z.log2_nonneg|].
    rewrite <- (Z.log2_pow2 53) by lia. apply Z.log2_le_mono. lia. }
  unfold fexp, emin, prec, emax.
  replace (Z.max (Z.log2 z + 1 - 53) (3 - 1024 - 53)) with (Z.log2 z - 52) by lia.
  destruct (decide (Z.log2 z = 53)) as [H53|H53].
  - assert (z = 2 ^ 53) as ->.
    { pose proof (Z.log2_spec z ltac:(lia)) as Hs. rewrite H53 in Hs. lia. }
    exists (Z.to_pos (2 ^ 52)). split; [|lia]. rewrite H53. by vm_compute.
  - exists (Z.to_pos (z * 2 ^ (52 - Z.log2 z))). split; [|lia].
    rewrite Z2Pos.id by (apply Z.mul_pos_pos; [lia|apply Z.pow_pos_nonneg; lia]).
    unfold scaled. rewrite <- Z.mul_assoc, <- Z.pow_add_r by lia.
    f_equal. f_equal. lia.
Qed.

Lemma of_Z_pos_exact s m :
  Z.pos m <= 2 ^ 53 →
  ∃ c E, binary_round prec emax s m 0 = S754_finite s c E
         ∧ scaled (Z.pos c) E = scaled (Z.pos m) 0
         ∧ (-52 <= E <= 1 ∧ E = Z.log2 (Z.pos m) - 52).
Proof.
  intros Hm. destruct (canonical_exists (Z.pos m)) as (c & Hc & HE); [lia|].
  exists c, (fexp prec emax (Zdigits2 (Z.pos m))).
  split_and!; [|done|lia|lia|apply fexp_safe; lia].
  apply binary_round_exact; [by rewrite Z.add_0_r|lia|unfold emax, prec in *; lia|done].
Qed.

(** Rounding depends on the value only. *)
Lemma binary_round_value s m e z :
  -2000 <= e → 0 < z <= 2 ^ 53 →
  scaled (Z.pos m) e = scaled z 0 →
  binary_round prec emax s m e = binary_round prec emax s (Z.to_pos z) 0.
Proof.
  intros He Hz Heq.
  destruct (canonical_exists z) as (c & Hc & HE); [done|].
  assert (Zdigits2 (Z.pos m) + e = Zdigits2 z) as Hd.
  { rewrite <- (Z.add_0_r (Zdigits2 z)). apply Zdigits2_scaled; [lia..|done]. }
  rewrite (binary_round_exact s m e c (fexp prec emax (Zdigits2 z)));
    [|by rewrite Hd|done|unfold emax, prec in *; lia|congruence].
  symmetry. apply binary_round_exact;
    [by rewrite Z.add_0_r, Z2Pos.id by lia|lia|unfold emax, prec in *; lia|].
  by rewrite Z2Pos.id by lia.
Qed.

Lemma of_Z_finite z :
  z ≠ 0 → safe z →
  ∃ c E, of_Z z = S754_finite (bool_decide (z < 0)) c E
         ∧ scaled (Z.pos c) E = scaled (Z.abs z) 0
         ∧ (-52 <= E <= 1 ∧ E = Z.log2 (Z.abs z) - 52).
Proof.
  unfold safe. intros Hz Hs. destruct z as [|p|p]; [done| |].
  - apply (of_Z_pos_exact false p). lia.
  - apply (of_Z_pos_exact true p). lia.
Qed.

Lemma scaled_sign M e z :
  -2000 <= e → scaled M e = scaled z 0 → Z.sgn M = Z.sgn z.
Proof.
  unfold scaled. intros He.
  assert (0 < 2 ^ (e + 2000)) as H1 by (apply Z.pow_pos_nonneg; lia).
  assert (0 < 2 ^ (0 + 2000)) as H2 by (apply Z.pow_pos_nonneg; lia).
  revert H1 H2. generalize (2 ^ (e + 2000)), (2 ^ (0 + 2000)).
  intros P Q HP HQ Heq. apply (f_equal Z.sgn) in Heq.
  rewrite !Z.sgn_mul, (Z.sgn_pos P), (Z.sgn_pos Q), !Z.mul_1_r in Heq; done.
Qed.

Lemma scaled_abs M e : scaled (Z.abs M) e = Z.abs (scaled M e).
Proof.
  unfold scaled. rewrite Z.abs_mul. f_equal. symmetry. apply Z.abs_eq.
  apply Z.pow_nonneg. lia.
Qed.

Lemma normalize_value M e z :
  -2000 <= e → safe z → scaled M e = scaled z 0 →
  binary_normalize prec emax M e false = of_Z z.
Proof.
  unfold safe. intros He Hs Heq.
  pose proof (scaled_sign M e z He Heq) as Hsgn.
  apply (f_equal Z.abs) in Heq. rewrite <- !scaled_abs in Heq.
  destruct M as [|m|m], z as [|p|p]; try done.
  - apply (binary_round_value false m e (Z.pos p)); [done|lia|done].
  - apply (binary_round_value true m e (Z.pos p)); [done|lia|done].
Qed.

Lemma cond_Zopp_abs a P :
  cond_Zopp (bool_decide (a < 0)) (Z.abs a * P) = a * P.
Proof.
  case_bool_decide; cbn [cond_Zopp].
  - rewrite Z.abs_neq by lia. ring.
  - rewrite Z.abs_eq by lia. done.
Qed.

Lemma Double_add_exact a b :
  safe a → safe b → safe (a + b) → add (of_Z a) (of_Z b) = of_Z (a + b).
Proof.
  intros Ha Hb Hab.
  destruct (decide (a = 0)) as [->|Ha0].
  { destruct (decide (b = 0)) as [->|Hb0]; [done|]. rewrite Z.add_0_l.
    destruct (of_Z_finite b) as (c & E & -> & _); done. }
  destruct (decide (b = 0)) as [->|Hb0].
  { rewrite Z.add_0_r. destruct (of_Z_finite a) as (c & E & -> & _); done. }
  destruct (of_Z_finite a) as (ca & Ea & -> & Hca & HEa); [done..|].
  destruct (of_Z_finite b) as (cb & Eb & -> & Hcb & HEb); [done..|].
  unfold add, SFadd. apply normalize_value; [lia|done|].
  rewrite !shl_align_fst by lia.
  unfold scaled in *.
  assert (∀ s c E, Z.min Ea Eb <= E → -52 <= E →
            cond_Zopp s (Z.pos c * 2 ^ (E - Z.min Ea Eb)) * 2 ^ (Z.min Ea Eb + 2000)
            = cond_Zopp s (Z.pos c * 2 ^ (E + 2000))) as Hal.
  { intros s c E H1 H2.
    replace (E + 2000) with ((E - Z.min Ea Eb) + (Z.min Ea Eb + 2000)) by lia.
    rewrite (Z.pow_add_r 2 (E - Z.min Ea Eb)) by lia.
    unfold cond_Zopp. destruct s; ring. }
  rewrite Z.mul_add_distr_r, !Hal, Hca, Hcb by lia.
  rewrite !cond_Zopp_abs. ring.
Qed.

Lemma binary_round_opp s m e :
  binary_round prec emax (negb s) m e = SFopp (binary_round prec emax s m e).
Proof.
  unfold binary_round, binary_round_aux.
  destruct (shl_align _ _ _) as [mz ez].
  destruct (shr_fexp _ _ _ _ _) as [mrs' e'].
  destruct (shr_fexp _ _ _ _ _) as [mrs'' e''].
  destruct (shr_m mrs''); [done| |done]. by destruct (_ <=? _).
Qed.

Lemma of_Z_opp z : z ≠ 0 → of_Z (- z) = SFopp (of_Z z).
Proof.
  destruct z as [|p|p]; [done| |]; intros _.
  - apply (binary_round_opp false).
  - apply (binary_round_opp true).
Qed.

Lemma Double_sub_exact a b :
  safe a → safe b → safe (a - b) → sub (of_Z a) (of_Z b) = of_Z (a - b).
Proof.
  intros Ha Hb Hab.
  destruct (decide (b = 0)) as [->|Hb0].
  { rewrite Z.sub_0_r. by destruct (of_Z a) as [[]| | |]. }
  destruct (decide (a = 0)) as [->|Ha0].
  { rewrite Z.sub_0_l, of_Z_opp by done.
    destruct (of_Z_finite b) as (cb & Eb & -> & _); done. }
  destruct (of_Z_finite a) as (ca & Ea & -> & Hca & HEa); [done..|].
  destruct (of_Z_finite b) as (cb & Eb & -> & Hcb & HEb); [done..|].
  unfold sub, SFsub. apply normalize_value; [lia|done|].
  rewrite !shl_align_fst by lia.
  unfold scaled in *.
  assert (∀ s c E, Z.min Ea Eb <= E → -52 <= E →
            cond_Zopp s (Z.pos c * 2 ^ (E - Z.min Ea Eb)) * 2 ^ (Z.min Ea Eb + 2000)
            = cond_Zopp s (Z.pos c * 2 ^ (E + 2000))) as Hal.
  { intros s c E H1 H2.
    replace (E + 2000) with ((E - Z.min Ea Eb) + (Z.min Ea Eb + 2000)) by lia.
    rewrite (Z.pow_add_r 2 (E - Z.min Ea Eb)) by lia.
    unfold cond_Zopp. destruct s; ring. }
  rewrite Z.mul_sub_distr_r, !Hal, Hca, Hcb by lia.
  rewrite !cond_Zopp_abs. ring.
Qed.

Lemma Double_mul_exact a b :
  0 < a → safe a → safe b → safe (a * b) →
  mul (of_Z a) (of_Z b) = of_Z (a * b).
Proof.
  intros Ha0 Ha Hb Hab.
  destruct (of_Z_finite a) as (ca & Ea & -> & Hca & HEa); [lia|done|].
  rewrite bool_decide_eq_false_2 by lia.
  destruct (decide (b = 0)) as [->|Hb0]; [by rewrite Z.mul_0_r|].
  destruct (of_Z_finite b) as (cb & Eb & -> & Hcb & HEb); [done..|].
  unfold mul, SFmul. cbn [xorb].
  assert (scaled (Z.pos (ca * cb)) (Ea + Eb) = scaled (Z.abs (a * b)) 0) as Heq.
  { unfold scaled in *. rewrite Z.abs_mul, Pos2Z.inj_mul.
    change (0 + 2000) with 2000 in *.
    apply (Z.mul_cancel_r _ _ (2 ^ 2000)); [by apply Z.pow_nonzero|].
    rewrite <- (Z.mul_assoc _ (2 ^ (Ea + Eb + 2000))), <- Z.pow_add_r by lia.
    replace (Ea + Eb + 2000 + 2000) with ((Ea + 2000) + (Eb + 2000)) by lia.
    rewrite Z.pow_add_r by lia.
    revert Hca Hcb. generalize (2 ^ 2000), (2 ^ (Ea + 2000)), (2 ^ (Eb + 2000)).
    intros P Pa Pb Hca Hcb.
    transitivity ((Z.pos ca * Pa) * (Z.pos cb * Pb)); [ring|].
    rewrite Hca, Hcb. ring. }
  assert (0 < Z.abs (a * b) <= 2 ^ 53) as Hpos by (unfold safe in *; nia).
  destruct (canonical_exists (Z.abs (a * b))) as (c & Hc & HE); [done|].
  assert (Zdigits2 (Z.pos (ca * cb)) + (Ea + Eb) = Zdigits2 (Z.abs (a * b))) as Hd.
  { rewrite <- (Z.add_0_r (Zdigits2 (Z.abs _))).
    apply Zdigits2_scaled; [lia..|done]. }
  assert (Ea + Eb <= fexp prec emax (Zdigits2 (Z.abs (a * b)))) as Hle.
  { apply (f_equal Z.log2) in Hca, Hcb. unfold scaled in Hca, Hcb.
    rewrite !Z.log2_mul_pow2 in Hca, Hcb by lia.
    pose proof (Z.log2_mul_below (Z.abs a) (Z.abs b) ltac:(lia) ltac:(lia)).
    rewrite fexp_safe, Z.abs_mul by done. lia. }
  rewrite (binary_round_aux_exact _ _ _ c (fexp prec emax (Zdigits2 (Z.abs (a * b)))));
    [|by rewrite Hd|lia|unfold emax, prec in *; lia|congruence].
  rewrite of_Z_round by lia. symmetry.
  replace (bool_decide (a * b < 0)) with (bool_decide (b < 0))
    by (apply bool_decide_ext; nia).
  apply binary_round_exact;
    [by rewrite Z.add_0_r, Z2Pos.id by lia|lia|unfold emax, prec in *; lia|].
  by rewrite Z2Pos.id by lia.
Qed.

Lemma Double_to_Z_of_Z z : safe z → to_Z (of_Z z) = Some z.
Proof.
  intros Hs. destruct (decide (z = 0)) as [->|Hz]; [done|].
  destruct (of_Z_finite z) as (c & E & -> & Hc & HE); [done..|].
  unfold to_Z.
  assert ((if bool_decide (z < 0) then Z.neg c else Z.pos c)
          = Z.sgn z * Z.pos c) as -> by (case_bool_decide; lia).
  case_decide as HE0.
  - apply scaled_le in Hc; [|lia]. rewrite Z.sub_0_r in Hc. f_equal. lia.
  - symmetry in Hc. apply scaled_le in Hc; [|lia].
    rewrite Z.sub_0_l in Hc. rewrite Hc.
    assert (0 < 2 ^ (- E)) by (apply Z.pow_pos_nonneg; lia).
    rewrite Z.mul_assoc, Z.mod_mul, Z.div_mul by lia.
    rewrite decide_True by done. f_equal. lia.
Qed.

Lemma Double_sub_zero x : sub x (of_Z 0) = x.
Proof. by destruct x as [[]| | |]. Qed.

End Exact.

(** ** Doubles that are safe integers *)

Lemma Double_value_of_Z z : Double.safe z → Double.value (Double.of_Z z) = z.
Proof. intros Hz. unfold Double.value. by rewrite Double_to_Z_of_Z. Qed.

Lemma Double_exact_of_Z z : Double.safe z → Double.exact (Double.of_Z z).
Proof. intros Hz. unfold Double.exact. by rewrite Double_value_of_Z. Qed.

Lemma Double_exact_to_Z x : Double.exact x → Double.to_Z x = Some (Double.value x).
Proof. intros [Hx Hs]. rewrite Hx at 1. by apply Double_to_Z_of_Z. Qed.


Lemma Double_sub_value x y :
  Double.exact x → Double.exact y →
  Double.safe (Double.value x - Double.value y) →
  Double.sub x y = Double.of_Z (Double.value x - Double.value y).
Proof.
  intros [Hx Hsx] [Hy Hsy] Hs. rewrite Hx, Hy at 1. by apply Double_sub_exact.
Qed.

Lemma safe_0 : Double.safe 0.
Proof. unfold Double.safe. lia. Qed.

(** ** Sums of doubles *)

Lemma sumsSafe_acc acc terms : sumsSafe acc terms → Double.safe acc.
Proof. destruct terms; simpl; tauto. Qed.

Lemma sumsSafe_sum acc terms :
  sumsSafe acc terms → Double.safe (acc + foldr Z.add 0 terms).
Proof.
  revert acc. induction terms as [|term terms IH]; intros acc; simpl.
  - by rewrite Z.add_0_r.
  - intros (_ & _ & Hrest). rewrite Z.add_assoc. by apply IH.
Qed.

Lemma sumsSafe_app acc terms1 terms2 :
  sumsSafe acc (terms1 ++ terms2)
  ↔ sumsSafe acc terms1 ∧ sumsSafe (acc + foldr Z.add 0 terms1) terms2.
Proof.
  revert acc. induction terms1 as [|term terms1 IH]; intros acc; simpl.
  - rewrite Z.add_0_r. split; [|tauto]. intros H. split; [|done].
    by eapply sumsSafe_acc.
  - rewrite IH, Z.add_assoc. tauto.
Qed.

Lemma sumsSafe_nonneg acc terms :
  0 <= acc → Forall (λ term, 0 <= term) terms →
  acc + foldr Z.add 0 terms <= 2 ^ 53 → sumsSafe acc terms.
Proof.
  intros Hacc Hterms. revert acc Hacc.
  induction Hterms as [|term terms Hterm Hterms IH]; intros acc Hacc Hsum;
    simpl in *.
  - unfold Double.safe. lia.
  - assert (0 <= foldr Z.add 0 terms).
    { clear -Hterms. induction Hterms; simpl; lia. }
    split_and!; [unfold Double.safe; lia..|]. apply IH; lia.
Qed.

Lemma fold_left_exact {A} (f : A → spec_float) (l : list A) (acc : Z) :
  Forall (λ a, Double.exact (f a)) l →
  sumsSafe acc ((λ a, Double.value (f a)) <$> l) →
  fold_left (λ acc a, Double.add acc (f a)) l (Double.of_Z acc)
  = Double.of_Z (acc + foldr Z.add 0 ((λ a, Double.value (f a)) <$> l)).
Proof.
  intros Hl. revert acc.
  induction Hl as [|a l [Ha _] _ IH]; intros acc Hsafe;
    cbn [fold_left fmap list_fmap foldr sumsSafe] in *.
  - by rewrite Z.add_0_r.
  - destruct Hsafe as (Hacc & Hterm & Hrest).
    rewrite Ha at 1. rewrite Double_add_exact; [|done..|by eapply sumsSafe_acc].
    rewrite IH by done. f_equal. lia.
Qed.

Lemma totalQuantity_sum units :
  totalQuantity units = foldr Z.add 0 (PlayerUnit.count <$> units).
Proof.
  induction units as [|unit units IH]; [done|].
  cbn [fmap list_fmap foldr]. rewrite <- IH. done.
Qed.

(** * Levels *)

Lemma elem_of_Levels lvl xp :
  (lvl, xp) ∈ Levels
  ↔ (lvl, xp) = (1, 0) ∨ (lvl, xp) = (2, 200)
    ∨ (lvl, xp) = (3, 500) ∨ (lvl, xp) = (4, 1000).
Proof. unfold Levels. rewrite !elem_of_cons, elem_of_nil. tauto. Qed.

(** Case analysis on an entry of [Levels]. *)
Ltac levels_cases H :=
  apply elem_of_Levels in H;
  destruct H as [[= -> ->]|[[= -> ->]|[[= -> ->]|[= -> ->]]]].

Lemma isLevelOf_unique experience lvl lvl' :
  isLevelOf experience lvl → isLevelOf experience lvl' → lvl = lvl'.
Proof.
  intros [[xp [Hin Hle]] Hmax] [[xp' [Hin' Hle']] Hmax'].
  specialize (Hmax _ _ Hin' Hle'). specialize (Hmax' _ _ Hin Hle). lia.
Qed.

(** The getter, with its filter, sort and lookup evaluated over the four
    entries of [Levels]. *)
Lemma level_cases this :
  UserModel.level this =
    let xp := UserModel.experience this in
    if decide (xp = 0) then Some 1
    else if decide (xp <= 0) then None
    else if decide (xp <= 200) then Some 1
    else if decide (xp <= 500) then Some 2
    else if decide (xp <= 1000) then Some 3
    else Some 4.
Proof.
  unfold UserModel.level.
  destruct this as [? ? ? ? ? ? xp ? ? ? ? ? ?]; cbn -[decide].
  destruct (decide (xp = 0)) as [->|Hne]; [reflexivity|].
  repeat match goal with
    | |- context [decide (xp > ?c)] => destruct (decide (xp > c))
    | |- context [decide (xp <= ?c)] => destruct (decide (xp <= c))
    end; try lia; reflexivity.
Qed.

(** Away from the thresholds the getter is the level of the
    specification. *)
Lemma level_off_threshold this lvl :
  0 <= UserModel.experience this →
  (∀ l xp, (l, xp) ∈ Levels → 0 < xp → UserModel.experience this ≠ xp) →
  UserModel.level this = Some lvl ↔ isLevelOf (UserModel.experience this) lvl.
Proof.
  intros Hnn Hoff. rewrite level_cases. cbv zeta.
  assert (UserModel.experience this ≠ 200)
    by (apply (Hoff 2); [apply elem_of_Levels; tauto | lia]).
  assert (UserModel.experience this ≠ 500)
    by (apply (Hoff 3); [apply elem_of_Levels; tauto | lia]).
  assert (UserModel.experience this ≠ 1000)
    by (apply (Hoff 4); [apply elem_of_Levels; tauto | lia]).
  set (xp := UserModel.experience this) in *.
  assert (Hspec : ∀ l t,
    (l, t) ∈ Levels → t <= xp →
    (∀ l' t', (l', t') ∈ Levels → t' <= xp → l' <= l) →
    Some l = Some lvl ↔ isLevelOf xp lvl).
  { intros l t Hin Hle Hmax. split.
    - intros [= <-]. split; eauto.
    - intros Hk. f_equal. apply (isLevelOf_unique xp); [split; eauto | done]. }
  repeat case_decide; try lia.
  - apply (Hspec 1 0); [apply elem_of_Levels; tauto | lia |].
    intros l' t' Hin' ?. levels_cases Hin'; lia.
  - apply (Hspec 1 0); [apply elem_of_Levels; tauto | lia |].
    intros l' t' Hin' ?. levels_cases Hin'; lia.
  - apply (Hspec 2 200); [apply elem_of_Levels; tauto | lia |].
    intros l' t' Hin' ?. levels_cases Hin'; lia.
  - apply (Hspec 3 500); [apply elem_of_Levels; tauto | lia |].
    intros l' t' Hin' ?. levels_cases Hin'; lia.
  - apply (Hspec 4 1000); [apply elem_of_Levels; tauto | lia |].
    intros l' t' Hin' ?. levels_cases Hin'; lia.
Qed.

(** C1, at its failing inputs.  A user whose experience is exactly the
    threshold of a level above the first is given the level below it,
    although that level is the greatest one whose threshold is at most the
    experience: the filter keeps the thresholds strictly below the
    experience.  [xpToNextLevel] then says that nothing is missing to the
    next level. *)
Theorem level_at_threshold this lvl xp :
  (lvl, xp) ∈ Levels → 0 < xp → UserModel.experience this = xp →
  UserModel.level this = Some (lvl - 1)
  ∧ UserModel.xpToNextLevel this = Some (Num 0)
  ∧ isLevelOf xp lvl.
Proof.
  intros Hin Hpos Hxp. unfold UserModel.xpToNextLevel.
  rewrite level_cases, Hxp. cbv zeta.
  levels_cases Hin; [lia| | |].
  all: split; [reflexivity|].
  all: split; [reflexivity|].
  all: split; [eexists; split; [apply elem_of_Levels; eauto 6 | lia] |].
  all: intros l' t' Hin' ?; levels_cases Hin'; lia.
Qed.

Lemma level_at_threshold_witness :
  ((2, 200) ∈ Levels ∧ 0 < 200
   ∧ UserModel.experience (exampleUser 200 1 50 []) = 200)
  ∧ UserModel.level (exampleUser 200 1 50 []) = Some (2 - 1)
  ∧ UserModel.xpToNextLevel (exampleUser 200 1 50 []) = Some (Num 0)
  ∧ isLevelOf 200 2.
Proof.
  assert (Hin : (2, 200) ∈ Levels) by (apply elem_of_Levels; tauto).
  assert (Hpos : 0 < 200) by lia.
  assert (Hxp : UserModel.experience (exampleUser 200 1 50 []) = 200)
    by reflexivity.
  split; [by split_and! |].
  exact (level_at_threshold (exampleUser 200 1 50 []) 2 200 Hin Hpos Hxp).
Defined.

(** * Gold per turn *)

Lemma UnitTypes_key (t1 t2 : Unit.t) :
  t1 ∈ UnitTypes → t2 ∈ UnitTypes →
  Unit.type t1 = Unit.type t2 → Unit.level t1 = Unit.level t2 → t1 = t2.
Proof.
  unfold UnitTypes. rewrite !elem_of_cons, !elem_of_nil.
  intros H1 H2.
  repeat (destruct H1 as [->|H1]); try done;
    repeat (destruct H2 as [->|H2]); try done.
Qed.

Lemma worker_unitType unitType :
  unitType ∈ UnitTypes → Unit.type unitType = "WORKER" →
  Unit.level unitType = 1 ∧ Unit.bonus unitType = 65.
Proof.
  unfold UnitTypes. rewrite !elem_of_cons, elem_of_nil. intros Hin Hw.
  repeat (destruct Hin as [->|Hin]; [done || discriminate Hw|]). done.
Qed.

Lemma WorkerGold_functional units g1 g2 :
  WorkerGold units g1 → WorkerGold units g2 → g1 = g2.
Proof.
  intros H1. revert g2.
  induction H1 as [|u t rest g Hw Hin Ht Hl _ IH|u rest g Hw _ IH];
    intros g2 H2.
  - by inversion H2.
  - inversion H2 as [|? t' ? g' _ Hin' Ht' Hl' Hrest|]; subst; [|done].
    rewrite (UnitTypes_key t t') by congruence. by rewrite (IH g').
  - inversion H2; subst; [done|]. by apply IH.
Qed.

Lemma bonusOf_found (unit : PlayerUnit.t) unitType :
  Array_find
    (λ unitType, Unit.type unitType = PlayerUnit.type unit
                 ∧ Unit.level unitType = PlayerUnit.level unit) UnitTypes
  = Some unitType →
  bonusOf unit = Unit.bonus unitType.
Proof. unfold bonusOf. by intros ->. Qed.

Lemma workerTerms_cons unit units :
  workerTerms (unit :: units)
  = if decide (PlayerUnit.type unit = "WORKER")
    then bonusOf unit * PlayerUnit.count unit :: workerTerms units
    else workerTerms units.
Proof. unfold workerTerms. rewrite filter_cons. by case_decide. Qed.

Lemma WorkerGold_terms (units : list PlayerUnit.t) :
  (∀ unit, unit ∈ units → PlayerUnit.type unit = "WORKER" →
     ∃ unitType, unitType ∈ UnitTypes
       ∧ Unit.type unitType = PlayerUnit.type unit
       ∧ Unit.level unitType = PlayerUnit.level unit) →
  WorkerGold units (foldr Z.add 0 (workerTerms units)).
Proof.
  induction units as [|unit units IH]; intros Hmatch; [constructor|].
  rewrite workerTerms_cons.
  assert (WorkerGold units (foldr Z.add 0 (workerTerms units))) as Hrest.
  { apply IH. intros u Hu. apply Hmatch. by right. }
  case_decide as Hw; [|by apply WorkerGold_other].
  destruct (Hmatch unit) as (t & Hin & Ht & Hl); [by left|done|].
  destruct (Array_find
              (λ unitType, Unit.type unitType = PlayerUnit.type unit
                           ∧ Unit.level unitType = PlayerUnit.level unit)
              UnitTypes) as [t'|] eqn:Hfind.
  - rewrite (bonusOf_found _ _ Hfind).
    apply Array_find_elem_of in Hfind as (Hin' & Ht' & Hl').
    cbn [foldr]. by apply WorkerGold_worker.
  - apply Array_find_None in Hfind. rewrite Forall_forall in Hfind.
    by destruct (Hfind t Hin).
Qed.

(** The [map] and the [reduce] of [goldPerTurn], when no product and no
    running sum is rounded. *)
Lemma workerGolds σ (units : list loc) (acc : Z) :
  (∀ unit, unit ∈ units → PlayerUnit.type (σ unit) = "WORKER" →
     ∃ unitType, unitType ∈ UnitTypes
       ∧ Unit.type unitType = PlayerUnit.type (σ unit)
       ∧ Unit.level unitType = PlayerUnit.level (σ unit)) →
  (∀ unit, unit ∈ units → PlayerUnit.type (σ unit) = "WORKER" →
     counted (σ unit)) →
  sumsSafe acc (workerTerms (σ <$> units)) →
  ∃ golds,
    mapM (λ unit,
        unitType ← Array_find
          (λ unitType, Unit.type unitType = PlayerUnit.type (σ unit)
                       ∧ Unit.level unitType = PlayerUnit.level (σ unit))
          UnitTypes;
        Some (Double.mul (Double.of_Z (Unit.bonus unitType))
                (PlayerUnit.quantity (σ unit))))
      (filter (λ units, PlayerUnit.type (σ units) = "WORKER") units)
    = Some golds
    ∧ fold_left (λ acc gold, Double.add acc gold) golds (Double.of_Z acc)
      = Double.of_Z (acc + foldr Z.add 0 (workerTerms (σ <$> units))).
Proof.
  set (gold := λ unit : loc, _).
  revert acc. induction units as [|unit units IH]; intros acc Hmatch Hexact Hsafe.
  - exists []. split; [done|]. cbn. by rewrite Z.add_0_r.
  - rewrite fmap_cons, workerTerms_cons in *.
    rewrite filter_cons. case_decide as Hw.
    + destruct Hsafe as (Hacc & Hterm & Hrest).
      destruct (IH (acc + bonusOf (σ unit) * PlayerUnit.count (σ unit)))
        as (golds & Hgolds & Hsum); [| |done|].
      { intros u Hu. apply Hmatch. by right. }
      { intros u Hu. apply Hexact. by right. }
      destruct (Hmatch unit) as (t & Hin & Ht & Hl); [by left | done |].
      destruct (Hexact unit) as [Hq Hcount]; [by left | done |].
      change (mapM gold (unit :: ?l))
        with (y ← gold unit; k ← mapM gold l; Some (y :: k)).
      rewrite Hgolds. unfold gold at 1.
      destruct (Array_find _ UnitTypes) as [t'|] eqn:Hfind.
      * rewrite (bonusOf_found _ _ Hfind) in *.
        apply Array_find_elem_of in Hfind as (Hin' & Ht' & Hl').
        apply worker_unitType in Hin' as [_ Hbonus]; [|congruence].
        eexists. split; [reflexivity|].
        unfold PlayerUnit.count in *.
        cbn [fold_left foldr]. rewrite Hq at 1.
        rewrite Double_mul_exact, Double_add_exact, Hsum;
          [f_equal; lia|done|done|by eapply sumsSafe_acc
          |rewrite Hbonus; lia|rewrite Hbonus; unfold Double.safe; lia
          |done|done].
      * apply Array_find_None in Hfind. rewrite Forall_forall in Hfind.
        by destruct (Hfind t Hin).
    + apply IH; [| |done].
      * intros u Hu. apply Hmatch. by right.
      * intros u Hu. apply Hexact. by right.
Qed.

(** C2.  When [fortLevel] is a key of [Fortifications], every WORKER unit
    has an entry of its type and level in [UnitTypes], the quantities of
    the WORKER units are safe integers, and so are the products, the
    fortification's gold and every running sum, [goldPerTurn] returns the
    workers' gold (each WORKER unit's bonus times its quantity, nothing for
    a unit of another type; the sum is unique) plus the [goldPerTurn] of
    the fortification. *)
Theorem goldPerTurn_spec σ this fortification :
  Fortifications !! UserModel.fortLevel this = Some fortification →
  (∀ unit, unit ∈ UserModel.units this →
     PlayerUnit.type (σ unit) = "WORKER" →
     ∃ unitType, unitType ∈ UnitTypes
       ∧ Unit.type unitType = PlayerUnit.type (σ unit)
       ∧ Unit.level unitType = PlayerUnit.level (σ unit)) →
  (∀ unit, unit ∈ UserModel.units this →
     PlayerUnit.type (σ unit) = "WORKER" → counted (σ unit)) →
  sumsSafe 0
    (workerTerms (σ <$> UserModel.units this)
     ++ [Fortification.goldPerTurn fortification]) →
  ∃ workerGold,
    WorkerGold (σ <$> UserModel.units this) workerGold
    ∧ (∀ gold, WorkerGold (σ <$> UserModel.units this) gold →
       gold = workerGold)
    ∧ returnsGold σ this
        (workerGold + Fortification.goldPerTurn fortification).
Proof.
  intros Hfort Hmatch Hexact Hsafe.
  apply sumsSafe_app in Hsafe as [Hterms (Hsum & Hfortification & Htotal)].
  rewrite Z.add_0_l in *.
  destruct (workerGolds σ _ 0 Hmatch Hexact Hterms) as (golds & Hgolds & Hfold).
  assert (WorkerGold (σ <$> UserModel.units this)
            (foldr Z.add 0 (workerTerms (σ <$> UserModel.units this))))
    as Hworkers.
  { apply WorkerGold_terms. intros unit (l & -> & Hl)%list_elem_of_fmap.
    by apply Hmatch. }
  eexists. split_and!; [done| |].
  - intros gold Hgold. by eapply WorkerGold_functional.
  - unfold returnsGold, UserModel.goldPerTurn.
    rewrite Hgolds. cbn [mbind option_bind].
    rewrite Hfort. cbn [mbind option_bind].
    eexists. split; [reflexivity|].
    rewrite Hfold, Z.add_0_l, Double_add_exact by done.
    by apply Double_to_Z_of_Z.
Qed.

Lemma goldPerTurn_spec_witness :
  (Fortifications !! 3
     = Some (Fortification.mk "Town" 10 200 35 3000 10 250000)
   ∧ (∀ unit, unit ∈ [0; 1; 2]%nat →
       PlayerUnit.type (exampleStore unit) = "WORKER" →
       ∃ unitType, unitType ∈ UnitTypes
         ∧ Unit.type unitType = PlayerUnit.type (exampleStore unit)
         ∧ Unit.level unitType = PlayerUnit.level (exampleStore unit))
   ∧ (∀ unit, unit ∈ [0; 1; 2]%nat →
       PlayerUnit.type (exampleStore unit) = "WORKER" →
       counted (exampleStore unit))
   ∧ sumsSafe 0 (workerTerms (exampleStore <$> [0; 1; 2]%nat) ++ [3000]))
  ∧ ∃ workerGold,
      WorkerGold (exampleStore <$> [0; 1; 2]%nat) workerGold
      ∧ (∀ gold, WorkerGold (exampleStore <$> [0; 1; 2]%nat) gold →
         gold = workerGold)
      ∧ returnsGold exampleStore (exampleUser 0 3 200 [0; 1; 2]%nat)
          (workerGold + 3000).
Proof.
  assert (Hfort : Fortifications !! 3
            = Some (Fortification.mk "Town" 10 200 35 3000 10 250000))
    by reflexivity.
  assert (Hmatch : ∀ unit, unit ∈ [0; 1; 2]%nat →
            PlayerUnit.type (exampleStore unit) = "WORKER" →
            ∃ unitType, unitType ∈ UnitTypes
              ∧ Unit.type unitType = PlayerUnit.type (exampleStore unit)
              ∧ Unit.level unitType = PlayerUnit.level (exampleStore unit)).
  { intros unit Hin Hw. exists (Unit.mk "Worker" "WORKER" 1 65 2000).
    rewrite !elem_of_cons, elem_of_nil in Hin.
    destruct Hin as [->|[->|[->|[]]]]; try discriminate Hw.
    split_and!; [left | reflexivity | reflexivity]. }
  assert (Hexact : ∀ unit, unit ∈ [0; 1; 2]%nat →
            PlayerUnit.type (exampleStore unit) = "WORKER" →
            counted (exampleStore unit)).
  { intros unit Hin Hw.
    rewrite !elem_of_cons, elem_of_nil in Hin.
    destruct Hin as [->|[->|[->|[]]]]; try discriminate Hw.
    split; [reflexivity | vm_compute; split; discriminate]. }
  assert (Hsafe : sumsSafe 0
            (workerTerms (exampleStore <$> [0; 1; 2]%nat) ++ [3000]))
    by (vm_compute; intuition discriminate).
  split; [by split_and! |].
  exact (goldPerTurn_spec exampleStore (exampleUser 0 3 200 [0; 1; 2]%nat)
           _ Hfort Hmatch Hexact Hsafe).
Defined.

(** C2, as the specification words it, fails where a double rounds: 2^52
    workers earn 65 * 2^52 gold, a fortification of level 1 earns 1000,
    and [goldPerTurn] returns 24 more than their sum. *)
Lemma goldPerTurn_spec_counterexample :
  Fortifications !! 1 = Some (Fortification.mk "Manor" 0 50 0 1000 0 0)
  ∧ (∀ unit, unit ∈ [0%nat] →
      PlayerUnit.type (workersStore unit) = "WORKER" →
      ∃ unitType, unitType ∈ UnitTypes
        ∧ Unit.type unitType = PlayerUnit.type (workersStore unit)
        ∧ Unit.level unitType = PlayerUnit.level (workersStore unit))
  ∧ WorkerGold (workersStore <$> [0%nat]) (65 * 2 ^ 52)
  ∧ returnsGold workersStore (exampleUser 0 1 50 [0%nat])
      (65 * 2 ^ 52 + 1000 + 24)
  ∧ ¬ ∃ workerGold,
        WorkerGold (workersStore <$> [0%nat]) workerGold
        ∧ returnsGold workersStore (exampleUser 0 1 50 [0%nat])
            (workerGold + 1000).
Proof.
  assert (WorkerGold (workersStore <$> [0%nat]) (65 * 2 ^ 52)) as Hworkers.
  { assert (PlayerUnit.count (workersStore 0%nat) = 2 ^ 52) as Hcount
      by (by vm_compute).
    replace (65 * 2 ^ 52)
      with (Unit.bonus (Unit.mk "Worker" "WORKER" 1 65 2000)
            * PlayerUnit.count (workersStore 0%nat) + 0)
      by (by rewrite Hcount).
    change (workersStore <$> [0%nat]) with [workersStore 0%nat].
    apply WorkerGold_worker; [done | by left | done | done | constructor]. }
  split_and!; [done| |done| |].
  - intros unit ->%list_elem_of_singleton _.
    exists (Unit.mk "Worker" "WORKER" 1 65 2000).
    split_and!; [by left | done | done].
  - eexists. split; [by vm_compute|]. by vm_compute.
  - intros (workerGold & Hgold & x & Hx & Hz).
    rewrite (WorkerGold_functional _ _ _ Hgold Hworkers) in Hz.
    vm_compute in Hx. injection Hx as <-. vm_compute in Hz. discriminate Hz.
Qed.

(** * Fort health *)

Lemma fortHealth_current_max this fortification :
  Fortifications !! UserModel.fortLevel this = Some fortification →
  ∃ health, UserModel.fortHealth this = Some health
    ∧ FortHealth.current health = UserModel.fortHitpoints this
    ∧ FortHealth.max health = Fortification.hitpoints fortification.
Proof.
  intros Hfort. unfold UserModel.fortHealth. rewrite Hfort.
  cbn [mbind option_bind]. eexists. split; [reflexivity|]. split; reflexivity.
Qed.

Lemma fortHealth_throws this :
  Fortifications !! UserModel.fortLevel this = None →
  UserModel.fortHealth this = None.
Proof. intros Hfort. unfold UserModel.fortHealth. by rewrite Hfort. Qed.

(** C4, at its failing input.  A Manor (level 1, 50 hit points) with 29 hit
    points left: [current] and [max] are as the claim says, but the
    percentage is 57, while the floor of 29 / 50 * 100 is 58.  The double
    nearest to 29 / 50 lies below 0.58, and its product with 100 rounds to
    57.99999999999999. *)
Theorem fortHealth_29_of_50 this :
  UserModel.fortLevel this = 1 → UserModel.fortHitpoints this = 29 →
  UserModel.fortHealth this
    = Some {| FortHealth.current := 29; FortHealth.max := 50;
              FortHealth.percentage := Num 57 |}
  ∧ exactPercentage 29 50 = 58.
Proof.
  intros Hlevel Hhp. unfold UserModel.fortHealth. rewrite Hlevel, Hhp.
  split; vm_compute; reflexivity.
Qed.

Lemma fortHealth_29_of_50_witness :
  (UserModel.fortLevel (exampleUser 0 1 29 []) = 1
   ∧ UserModel.fortHitpoints (exampleUser 0 1 29 []) = 29)
  ∧ UserModel.fortHealth (exampleUser 0 1 29 [])
    = Some {| FortHealth.current := 29; FortHealth.max := 50;
              FortHealth.percentage := Num 57 |}
  ∧ exactPercentage 29 50 = 58.
Proof.
  split; [by split |].
  apply (fortHealth_29_of_50 (exampleUser 0 1 29 [])); reflexivity.
Defined.

(** * Bank deposits *)

Lemma countOwnDeposits_filter this histories :
  Z.of_nat (length (filter (isOwnDeposit this) histories))
  = countOwnDeposits this histories.
Proof.
  induction histories as [|h rest IH]; [done|].
  rewrite filter_cons. cbn [countOwnDeposits]. case_decide; cbn [length]; lia.
Qed.

Lemma countOwnDeposits_app this l1 l2 :
  countOwnDeposits this (l1 ++ l2)
  = countOwnDeposits this l1 + countOwnDeposits this l2.
Proof. induction l1 as [|h l1 IH]; cbn [countOwnDeposits app]; lia. Qed.

(** C5.  [maximumBankDeposits] is 1; [fetchAvailableBankDeposits] returns
    it minus the number of entries of the last day's history that are
    transfers from the user's own hand; an entry that misses one of the
    three conditions can be dropped from the history without changing the
    result. *)
Theorem fetchAvailableBankDeposits_spec this depositsUsed :
  UserModel.maximumBankDeposits = 1
  ∧ UserModel.fetchAvailableBankDeposits this depositsUsed
    = UserModel.maximumBankDeposits - countOwnDeposits this depositsUsed
  ∧ ∀ before history after,
      depositsUsed = before ++ history :: after →
      ¬ isOwnDeposit this history →
      UserModel.fetchAvailableBankDeposits this depositsUsed
      = UserModel.fetchAvailableBankDeposits this (before ++ after).
Proof.
  assert (Hcount : ∀ l,
    UserModel.fetchAvailableBankDeposits this l
    = UserModel.maximumBankDeposits - countOwnDeposits this l).
  { intros l. unfold UserModel.fetchAvailableBankDeposits.
    by rewrite <- countOwnDeposits_filter. }
  split_and!; [done | apply Hcount |].
  intros before history after -> Hnot. rewrite !Hcount, !countOwnDeposits_app.
  cbn [countOwnDeposits]. by rewrite decide_False.
Qed.

Lemma fetchAvailableBankDeposits_spec_witness :
  ¬ isOwnDeposit (exampleUser 0 1 50 [])
      (BankHistory.mk 2 "HAND" "PLAYER_TRANSFER")
  ∧ UserModel.fetchAvailableBankDeposits (exampleUser 0 1 50 [])
      exampleDeposits
    = 0
  ∧ UserModel.fetchAvailableBankDeposits (exampleUser 0 1 50 [])
      exampleDeposits
    = UserModel.fetchAvailableBankDeposits (exampleUser 0 1 50 [])
        [ BankHistory.mk 1 "HAND" "PLAYER_TRANSFER";
          BankHistory.mk 1 "BANK" "PLAYER_TRANSFER" ].
Proof.
  assert (Hother : ¬ isOwnDeposit (exampleUser 0 1 50 [])
                     (BankHistory.mk 2 "HAND" "PLAYER_TRANSFER"))
    by (intros [Hid _]; discriminate Hid).
  destruct (fetchAvailableBankDeposits_spec (exampleUser 0 1 50 [])
              exampleDeposits) as (_ & Hcount & Hdrop).
  split_and!; [done | by rewrite Hcount |].
  exact (Hdrop [BankHistory.mk 1 "HAND" "PLAYER_TRANSFER"] _
           [BankHistory.mk 1 "BANK" "PLAYER_TRANSFER"] eq_refl Hother).
Defined.

(** * Gold *)

(** C6.  [subtractGold] sets [gold] to [gold - amount] whatever the amount
    (the difference of the two doubles, which is the difference of the
    integers whenever these are safe), and from a state with nonnegative
    gold it can leave it negative. *)
Theorem subtractGold_unguarded :
  (∀ amount s,
     UserModel.gold (UserModel.self (UserModel.subtractGold amount s))
     = Double.sub (UserModel.gold (UserModel.self s)) amount)
  ∧ (∀ amount s,
       Double.exact (UserModel.gold (UserModel.self s)) →
       Double.exact amount →
       Double.safe
         (Double.value (UserModel.gold (UserModel.self s))
          - Double.value amount) →
       Double.to_Z
         (UserModel.gold (UserModel.self (UserModel.subtractGold amount s)))
       = Some (Double.value (UserModel.gold (UserModel.self s))
               - Double.value amount))
  ∧ ∃ s amount before after,
      Double.to_Z (UserModel.gold (UserModel.self s)) = Some before
      ∧ 0 <= before
      ∧ Double.to_Z
          (UserModel.gold (UserModel.self (UserModel.subtractGold amount s)))
        = Some after
      ∧ after < 0.
Proof.
  split_and!; [done| |].
  - intros amount s Hgold Hamount Hsafe.
    unfold UserModel.subtractGold.
    cbn [UserModel.self UserModel.gold UserModel.set_gold].
    rewrite Double_sub_value by done. by apply Double_to_Z_of_Z.
  - exists (exampleState [] []), (Double.of_Z 1001), 1000, (-1).
    split_and!; [by vm_compute | lia | by vm_compute | lia].
Qed.




(** * Fetching a user *)

Lemma sameFields_new record : sameFields (UserModel.new record) record.
Proof. repeat split. Qed.

Section FetchFacts.
Context {SidebarData : Type}.
Variable daoFetchById : Z → option UserData.t.
Variable daoFetchByEmail : string → option UserData.t.
Variable reqSidebarData : SidebarData.
Variable format : spec_float → string.
Variable σ : heap.

(** C7.  [fetchById] and [fetchByEmail] return null exactly when the DAO
    finds no record, and otherwise a model whose public fields are those of
    the record; the overview page answers 404 exactly when [fetchById]
    returned null. *)
Theorem fetch_null_iff_no_record :
  (∀ id,
     (UserModel.fetchById daoFetchById id = None ↔ daoFetchById id = None)
     ∧ fetchedFrom (daoFetchById id) (UserModel.fetchById daoFetchById id))
  ∧ (∀ email,
     (UserModel.fetchByEmail daoFetchByEmail email = None
      ↔ daoFetchByEmail email = None)
     ∧ fetchedFrom (daoFetchByEmail email)
         (UserModel.fetchByEmail daoFetchByEmail email))
  ∧ (Overview.overviewPage daoFetchById reqSidebarData format σ
       = Some (Overview.sendStatus 404)
     ↔ UserModel.fetchById daoFetchById 1 = None).
Proof.
  split_and!.
  - intros id. unfold UserModel.fetchById, fetchedFrom.
    destruct (daoFetchById id) as [record|]; [|done].
    split; [done|]. eexists. split; [done | apply sameFields_new].
  - intros email. unfold UserModel.fetchByEmail, fetchedFrom.
    destruct (daoFetchByEmail email) as [record|]; [|done].
    split; [done|]. eexists. split; [done | apply sameFields_new].
  - unfold Overview.overviewPage.
    destruct (UserModel.fetchById daoFetchById 1) as [user|]; [|done].
    split; [|done].
    destruct (UserModel.citizens σ user); [|done].
    destruct (UserModel.level user); [|done].
    destruct (UserModel.xpToNextLevel user); [|done].
    destruct (UserModel.fortHealth user); [|done].
    destruct (UserModel.goldPerTurn σ user); done.
Qed.

End FetchFacts.

(** * Citizens *)

(** C9.  [citizens] throws exactly when no unit is a CITIZEN; when one is,
    it returns the quantity of the first. *)
Theorem citizens_defined σ this :
  (UserModel.citizens σ this = None
   ↔ Forall (λ unit, PlayerUnit.type (σ unit) ≠ "CITIZEN")
       (UserModel.units this))
  ∧ ((∃ unit, unit ∈ UserModel.units this
              ∧ PlayerUnit.type (σ unit) = "CITIZEN") →
     ∃ before citizenUnits after,
       UserModel.units this = before ++ citizenUnits :: after
       ∧ Forall (λ unit, PlayerUnit.type (σ unit) ≠ "CITIZEN") before
       ∧ PlayerUnit.type (σ citizenUnits) = "CITIZEN"
       ∧ UserModel.citizens σ this
         = Some (PlayerUnit.quantity (σ citizenUnits))).
Proof.
  unfold UserModel.citizens. split.
  - rewrite <- (Array_find_None
                  (λ unit, PlayerUnit.type (σ unit) = "CITIZEN")).
    destruct (Array_find _ _); cbn; split; done.
  - intros Hcitizen.
    apply (Array_find_is_Some (λ unit, PlayerUnit.type (σ unit) = "CITIZEN"))
      in Hcitizen as [citizenUnits Hfind].
    rewrite Hfind.
    apply Array_find_Some in Hfind
      as (before & after & Hunits & Htype & Hfirst).
    by exists before, citizenUnits, after.
Qed.

Lemma citizens_defined_witness :
  (∃ unit, unit ∈ [1; 0; 2]%nat
           ∧ PlayerUnit.type (exampleStore unit) = "CITIZEN")
  ∧ ∃ before citizenUnits after,
      [1; 0; 2]%nat = before ++ citizenUnits :: after
      ∧ Forall (λ unit, PlayerUnit.type (exampleStore unit) ≠ "CITIZEN")
          before
      ∧ PlayerUnit.type (exampleStore citizenUnits) = "CITIZEN"
      ∧ UserModel.citizens exampleStore (exampleUser 0 1 50 [1; 0; 2]%nat)
        = Some (PlayerUnit.quantity (exampleStore citizenUnits)).
Proof.
  assert (Hcitizen : ∃ unit, unit ∈ [1; 0; 2]%nat
            ∧ PlayerUnit.type (exampleStore unit) = "CITIZEN").
  { exists 0%nat. split; [compute_done | reflexivity]. }
  split; [done |].
  exact (proj2 (citizens_defined exampleStore
                  (exampleUser 0 1 50 [1; 0; 2]%nat)) Hcitizen).
Defined.

(** * Training units *)

Section TrainNewUnits.
Import UserModel.

(** ** The store under [write_quantity] *)

Lemma sameKind_kind a b : sameKind a b ↔ kind a = kind b.
Proof.
  unfold sameKind, kind. split; [by intros [-> ->] | by intros [= -> ->]].
Qed.

(** Goals that follow from the hypotheses by [sameKind] being an
    equivalence. *)
Ltac same_kind :=
  repeat match goal with
         | H : sameKind _ _ |- _ => apply sameKind_kind in H
         end;
  try apply sameKind_kind; congruence.

Lemma write_quantity_same unit q σ :
  write_quantity unit q σ unit = PlayerUnit.set_quantity q (σ unit).
Proof. unfold write_quantity. by rewrite decide_True. Qed.

Lemma write_quantity_other unit q σ l :
  l ≠ unit → write_quantity unit q σ l = σ l.
Proof. intros. unfold write_quantity. by rewrite decide_False. Qed.

Lemma write_quantity_kind unit q σ l :
  kind (write_quantity unit q σ l) = kind (σ l).
Proof. unfold write_quantity. case_decide; by subst. Qed.

(** Two stores that give every object the same type and level answer the
    [find] of a matching unit alike. *)
Lemma find_match_kind (τ σ : heap) (unit : loc) (arr : list loc) :
  (∀ l, kind (τ l) = kind (σ l)) →
  Array_find (λ newUnit, sameKind (τ newUnit) (τ unit)) arr
  = Array_find (λ newUnit, sameKind (σ newUnit) (σ unit)) arr.
Proof.
  intros Hkind. apply Array_find_ext. intros n.
  by rewrite !sameKind_kind, !Hkind.
Qed.

Lemma updateExisting_spec (σ : heap) (newUnits : list loc) :
  ∀ (unitsToUpdate : list loc) (τ : heap),
    NoDup unitsToUpdate →
    (∀ l, l ∈ unitsToUpdate → l ∉ newUnits) →
    (∀ l, kind (τ l) = kind (σ l)) →
    (∀ n, n ∈ newUnits → τ n = σ n) →
    (∀ l, l ∈ unitsToUpdate →
       is_Some (Array_find (λ newUnit, sameKind (σ newUnit) (σ l)) newUnits)) →
    ∃ τ', updateExisting newUnits unitsToUpdate τ = Some τ'
      ∧ (∀ l, l ∈ unitsToUpdate →
           τ' l = PlayerUnit.set_quantity
                    (gained σ newUnits l (PlayerUnit.quantity (τ l))) (τ l))
      ∧ (∀ l, l ∉ unitsToUpdate → τ' l = τ l).
Proof.
  induction unitsToUpdate as [|unit rest IH];
    intros τ Hnodup Hfresh Hkind Hnew Hmatch.
  - exists τ. split_and!; [done | | done]. by intros l ?%elem_of_nil.
  - apply NoDup_cons in Hnodup as [Hunit Hnodup].
    cbn [updateExisting]. rewrite (find_match_kind τ σ) by done.
    destruct (Hmatch unit) as [newUnit Hfind]; [by left|].
    rewrite Hfind. cbn [mbind option_bind].
    pose proof (Array_find_elem_of _ _ _ Hfind) as [HnewUnit _].
    rewrite (Hnew newUnit HnewUnit).
    set (τ1 := write_quantity unit _ τ).
    destruct (IH τ1) as (τ' & Hrun & Hupdated & Hkept).
    + done.
    + intros l Hl. apply Hfresh. by right.
    + intros l. unfold τ1. by rewrite write_quantity_kind.
    + intros n Hn. unfold τ1. rewrite write_quantity_other; [by apply Hnew|].
      intros ->. by apply (Hfresh unit); [left|].
    + intros l Hl. apply Hmatch. by right.
    + exists τ'. split_and!; [done | |].
      * intros l [->|Hl]%elem_of_cons.
        -- rewrite Hkept by done. unfold τ1. rewrite write_quantity_same.
           unfold gained, matchOf. by rewrite Hfind.
        -- rewrite Hupdated by done. unfold τ1.
           rewrite write_quantity_other; [done|]. by intros ->.
      * intros l Hl. rewrite Hkept.
        -- unfold τ1. apply write_quantity_other. intros ->. apply Hl. by left.
        -- intros ?. apply Hl. by right.
Qed.

Lemma trainedUnit_kind σ newUnits citizenUnits unit :
  kind (trainedUnit σ newUnits citizenUnits unit) = kind (σ unit).
Proof. done. Qed.

(** What [trainNewUnits] does, whatever [newUnits] holds: the units keep
    their order, each one becomes its [trainedUnit], and the entries of
    [newUnits] that match no unit are appended. *)
Lemma trainNewUnits_effect newUnits s citizenUnits :
  let σ := objects s in
  let us := units (self s) in
  NoDup us →
  (∀ l, l ∈ us → l ∉ newUnits) →
  Array_find (λ unit, PlayerUnit.type (σ unit) = "CITIZEN") us
    = Some citizenUnits →
  ∃ s', trainNewUnits newUnits s = Some s'
    ∧ units (self s')
      = us ++ filter (λ newUnit,
                ¬ is_Some (Array_find
                             (λ unit, sameKind (σ unit) (σ newUnit)) us))
              newUnits
    ∧ (∀ l, l ∈ us → objects s' l = trainedUnit σ newUnits citizenUnits l)
    ∧ (∀ l, l ∉ us → objects s' l = σ l).
Proof.
  intros σ us Hnodup Hfresh Hcitizen.
  pose proof (Array_find_elem_of _ _ _ Hcitizen) as [Hcin _].
  unfold trainNewUnits. fold σ us. cbv zeta. rewrite Hcitizen.
  cbn [mbind option_bind].
  change (fold_left _ newUnits (Double.of_Z 0)) with (totalOf σ newUnits).
  set (σ1 := write_quantity citizenUnits _ σ).
  assert (Hkind1 : ∀ l, kind (σ1 l) = kind (σ l))
    by (intros l; apply write_quantity_kind).
  rewrite (list_filter_iff _
    (λ unit, is_Some (Array_find (λ newUnit, sameKind (σ newUnit) (σ unit))
                        newUnits)))
    by (intros l; by rewrite (find_match_kind σ1 σ)).
  set (unitsToUpdate := filter _ us).
  destruct (updateExisting_spec σ newUnits unitsToUpdate σ1)
    as (σ2 & Hrun & Hupdated & Hkept).
  { by apply NoDup_filter. }
  { intros l [_ Hl]%list_elem_of_filter. by apply Hfresh. }
  { done. }
  { intros n Hn. apply write_quantity_other. intros ->.
    by apply (Hfresh citizenUnits). }
  { by intros l [Hl _]%list_elem_of_filter. }
  rewrite Hrun. cbn [mbind option_bind].
  assert (Heffect : ∀ l,
    l ∈ us → σ2 l = trainedUnit σ newUnits citizenUnits l).
  { intros l Hl. unfold trainedUnit.
    assert (Hσ1 : σ1 l = PlayerUnit.set_quantity
              (paid σ newUnits citizenUnits l) (σ l)).
    { unfold σ1, paid. case_decide as Hc.
      - subst l. apply write_quantity_same.
      - rewrite write_quantity_other by done. by destruct (σ l). }
    destruct (decide (l ∈ unitsToUpdate)) as [Hin|Hout].
    - rewrite Hupdated, Hσ1 by done. done.
    - rewrite Hkept, Hσ1 by done.
      assert (matchOf σ newUnits l = None) as Hnone.
      { destruct (matchOf σ newUnits l) eqn:Hfind; [|done].
        destruct Hout. apply list_elem_of_filter. split; [|done].
        unfold matchOf in Hfind. by rewrite Hfind. }
      unfold gained. by rewrite Hnone. }
  assert (Hframe : ∀ l, l ∉ us → σ2 l = σ l).
  { intros l Hl. rewrite Hkept.
    - apply write_quantity_other. by intros ->.
    - intros [_ ?]%list_elem_of_filter. done. }
  assert (Hkind2 : ∀ l, kind (σ2 l) = kind (σ l)).
  { intros l. destruct (decide (l ∈ us)).
    - by rewrite Heffect.
    - by rewrite Hframe. }
  eexists. split; [reflexivity|]. cbn [self objects units set_units].
  rewrite Object_assign_shorter by apply length_filter.
  split_and!; [|done..].
  f_equal. apply list_filter_iff. intros n.
  by rewrite (find_match_kind σ2 σ).
Qed.

(** ** The merge *)

Lemma total_exact (σ : heap) (newUnits : list loc) :
  Forall (λ n, counted (σ n)) newUnits →
  sumsSafe 0 (PlayerUnit.count <$> (σ <$> newUnits)) →
  totalOf σ newUnits = Double.of_Z (totalQuantity (σ <$> newUnits))
  ∧ Double.safe (totalQuantity (σ <$> newUnits)).
Proof.
  intros Hexact Hsafe. rewrite <- list_fmap_compose in Hsafe.
  rewrite totalQuantity_sum, <- list_fmap_compose. split.
  - unfold totalOf.
    by rewrite (fold_left_exact (λ n, PlayerUnit.quantity (σ n))).
  - by apply sumsSafe_sum in Hsafe.
Qed.

Lemma set_quantity_id unit q :
  q = PlayerUnit.quantity unit → PlayerUnit.set_quantity q unit = unit.
Proof. intros ->. by destruct unit. Qed.

Lemma appended_values (σ σ' : heap) (us newUnits : list loc) :
  (∀ n, n ∈ newUnits → σ' n = σ n) →
  σ' <$> filter (λ newUnit,
           ¬ is_Some (Array_find (λ unit, sameKind (σ unit) (σ newUnit)) us))
         newUnits
  = filter (λ newUnit, Forall (λ unit, ¬ sameKind unit newUnit) (σ <$> us))
      (σ <$> newUnits).
Proof.
  induction newUnits as [|n rest IH]; intros Hsame; [done|].
  assert (Hiff : ¬ is_Some (Array_find (λ unit, sameKind (σ unit) (σ n)) us)
                 ↔ Forall (λ unit, ¬ sameKind unit (σ n)) (σ <$> us)).
  { rewrite <- eq_None_not_Some, Array_find_None, Forall_fmap. done. }
  specialize (IH (λ m Hm, Hsame m (list_elem_of_further _ _ _ Hm))).
  rewrite fmap_cons.
  destruct (decide (Forall (λ unit, ¬ sameKind unit (σ n)) (σ <$> us)))
    as [Hall|Hsome].
  - rewrite !filter_cons_True by by (done || apply Hiff).
    rewrite fmap_cons, IH, Hsame; [done | by left].
  - rewrite !filter_cons_False by by (done || rewrite Hiff). done.
Qed.



(** ** Population *)

Lemma distinctKinds_cons unit units :
  distinctKinds (unit :: units)
  ↔ Forall (λ other, ¬ sameKind unit other) units ∧ distinctKinds units.
Proof.
  unfold distinctKinds. split.
  - intros Hd. split.
    + apply Forall_lookup. intros i other Hi Hsame.
      by specialize (Hd 0%nat (S i) unit other eq_refl Hi Hsame).
    + intros i j a b Hi Hj Hsame.
      by specialize (Hd (S i) (S j) a b Hi Hj Hsame) as [= ->].
  - intros [Hfirst Hd] i j a b Hi Hj Hsame.
    rewrite Forall_lookup in Hfirst.
    destruct i as [|i], j as [|j]; cbn in Hi, Hj; simplify_eq; [done | | |].
    + by destruct (Hfirst j b Hj).
    + destruct (Hfirst i a Hi). same_kind.
    + f_equal. by eapply Hd.
Qed.

Lemma increment_cons σ newUnit newUnits unit :
  increment σ (newUnit :: newUnits) unit
  = if decide (sameKind (σ newUnit) (σ unit))
    then PlayerUnit.count (σ newUnit)
    else increment σ newUnits unit.
Proof.
  unfold increment, matchOf. rewrite Array_find_cons. by case_decide.
Qed.

Lemma increment_none σ newUnits unit :
  Forall (λ newUnit, ¬ sameKind (σ newUnit) (σ unit)) newUnits →
  increment σ newUnits unit = 0.
Proof.
  intros Hnone. unfold increment, matchOf.
  by apply (Array_find_None (λ newUnit, sameKind (σ newUnit) (σ unit))) in Hnone
    as ->.
Qed.

(** The first of several entries of one kind is the only one a unit of
    that kind receives. *)
Lemma increments_cons σ newUnit newUnits (us : list loc) :
  Forall (λ n, ¬ sameKind (σ newUnit) (σ n)) newUnits →
  distinctKinds (σ <$> us) →
  foldr Z.add 0 (increment σ (newUnit :: newUnits) <$> us)
  = (if decide (Exists (λ unit, sameKind (σ unit) (σ newUnit)) us)
     then PlayerUnit.count (σ newUnit) else 0)
    + foldr Z.add 0 (increment σ newUnits <$> us).
Proof.
  intros Hfirst. induction us as [|unit us IH]; intros Hdistinct.
  - cbn. by rewrite decide_False by by intros ?%Exists_nil.
  - rewrite fmap_cons in Hdistinct.
    apply distinctKinds_cons in Hdistinct as [Hunit Hdistinct].
    specialize (IH Hdistinct). rewrite !fmap_cons. cbn [foldr].
    rewrite IH, increment_cons.
    destruct (decide (sameKind (σ newUnit) (σ unit))) as [Hsame|Hdiff].
    + rewrite increment_none.
      2:{ eapply Forall_impl; [exact Hfirst|]. intros n Hn Hm. apply Hn.
          same_kind. }
      rewrite (decide_True (P := Exists _ (unit :: us))).
      2:{ left. same_kind. }
      rewrite (decide_False (P := Exists _ us)); [done|].
      intros (other & Hother & Hm)%Exists_exists.
      rewrite Forall_fmap, Forall_forall in Hunit. apply (Hunit other Hother).
      cbn. same_kind.
    + destruct (decide (Exists _ us)) as [Hex|Hnex].
      * rewrite decide_True by by right. lia.
      * rewrite decide_False; [lia|].
        intros [Hm|Hex]%Exists_cons; [|done].
        apply Hdiff. same_kind.
Qed.

Lemma totalQuantity_app l1 l2 :
  totalQuantity (l1 ++ l2) = totalQuantity l1 + totalQuantity l2.
Proof.
  unfold totalQuantity. induction l1 as [|u l1 IH]; cbn [app foldr]; lia.
Qed.

(** When no two units and no two entries share a kind, what the units
    receive and what is appended add up to the total requested. *)
Lemma increments_total σ (us newUnits : list loc) :
  distinctKinds (σ <$> us) →
  distinctKinds (σ <$> newUnits) →
  foldr Z.add 0 (increment σ newUnits <$> us)
  + totalQuantity
      (filter (λ newUnit, Forall (λ unit, ¬ sameKind unit newUnit) (σ <$> us))
         (σ <$> newUnits))
  = totalQuantity (σ <$> newUnits).
Proof.
  intros Hus. induction newUnits as [|n newUnits IH]; intros Hnew.
  - assert (foldr Z.add 0 (increment σ [] <$> us) = 0) as ->; [|done].
    clear Hus. induction us as [|u us IHus]; [done|].
    rewrite fmap_cons. cbn [foldr]. by rewrite IHus.
  - rewrite fmap_cons in Hnew. apply distinctKinds_cons in Hnew as [Hn Hnew].
    specialize (IH Hnew). rewrite Forall_fmap in Hn.
    rewrite increments_cons by done. rewrite fmap_cons, filter_cons.
    cbn [totalQuantity foldr]. fold (totalQuantity (σ <$> newUnits)).
    destruct (decide (Exists (λ unit, sameKind (σ unit) (σ n)) us))
      as [Hex|Hnex].
    + rewrite decide_False; [lia|].
      intros Hall. rewrite Forall_fmap, Forall_forall in Hall.
      apply Exists_exists in Hex as (u & Hu & Hm). by apply (Hall u Hu).
    + rewrite decide_True.
      2:{ rewrite Forall_fmap. by apply not_Exists_Forall; [apply _|]. }
      unfold totalQuantity in *. cbn [foldr]. lia.
Qed.

(** The sum of what the units count, with [k] times the total for the
    CITIZEN entry, and what they gain. *)
Lemma trained_total (σ : heap) (newUnits : list loc) citizenUnits
    (us : list loc) (k : Z) :
  NoDup us →
  foldr Z.add 0
    ((λ l, PlayerUnit.count (σ l)
           + k * (if decide (l = citizenUnits)
                  then totalQuantity (σ <$> newUnits) else 0)
           + increment σ newUnits l) <$> us)
  = totalQuantity (σ <$> us)
    + k * (if decide (citizenUnits ∈ us)
           then totalQuantity (σ <$> newUnits) else 0)
    + foldr Z.add 0 (increment σ newUnits <$> us).
Proof.
  induction us as [|l us IH]; intros Hnodup.
  - cbn. rewrite decide_False by by intros ?%elem_of_nil. lia.
  - apply NoDup_cons in Hnodup as [Hl Hnodup].
    rewrite !fmap_cons. unfold totalQuantity in *. cbn [foldr].
    rewrite IH by done.
    destruct (decide (l = citizenUnits)) as [->|Hne].
    + rewrite (decide_True (P := citizenUnits ∈ citizenUnits :: us)) by by left.
      rewrite (decide_False (P := citizenUnits ∈ us)) by done. lia.
    + destruct (decide (citizenUnits ∈ us)) as [Hin|Hout].
      * rewrite decide_True by by right. lia.
      * rewrite decide_False; [lia|]. by intros [->|?]%elem_of_cons.
Qed.

Lemma sum_app (l1 l2 : list Z) :
  foldr Z.add 0 (l1 ++ l2) = foldr Z.add 0 l1 + foldr Z.add 0 l2.
Proof. induction l1 as [|z l1 IH]; cbn [app foldr]; lia. Qed.

Lemma sumsSafe_abs acc terms :
  Z.abs acc + foldr Z.add 0 (Z.abs <$> terms) <= 2 ^ 53 → sumsSafe acc terms.
Proof.
  revert acc. induction terms as [|term terms IH]; intros acc Hsum;
    cbn [fmap list_fmap foldr sumsSafe] in *.
  - unfold Double.safe. lia.
  - assert (0 <= foldr Z.add 0 (Z.abs <$> terms)).
    { clear. induction terms; cbn [fmap list_fmap foldr]; lia. }
    split_and!; [unfold Double.safe; lia..|]. apply IH. lia.
Qed.

Lemma sum_le {A} (f g : A → Z) (l : list A) :
  (∀ a, a ∈ l → f a <= g a) →
  foldr Z.add 0 (f <$> l) <= foldr Z.add 0 (g <$> l).
Proof.
  induction l as [|a l IH]; intros Hle; cbn [fmap list_fmap foldr]; [done|].
  specialize (Hle a (list_elem_of_here _ _)) as Ha.
  specialize (IH (λ b Hb, Hle b (list_elem_of_further _ _ _ Hb))). lia.
Qed.

Lemma sum_elem_le {A} (f : A → Z) (l : list A) (a : A) :
  (∀ b, b ∈ l → 0 <= f b) → a ∈ l → f a <= foldr Z.add 0 (f <$> l).
Proof.
  induction l as [|b l IH]; intros Hpos Ha; [by apply elem_of_nil in Ha|].
  cbn [fmap list_fmap foldr].
  assert (0 <= foldr Z.add 0 (f <$> l)).
  { transitivity (foldr Z.add 0 ((λ _, 0) <$> l)).
    - clear. induction l; cbn [fmap list_fmap foldr]; lia.
    - apply sum_le. intros c Hc. apply Hpos. by right. }
  pose proof (Hpos b (list_elem_of_here _ _)).
  apply elem_of_cons in Ha as [->|Ha]; [lia|].
  specialize (IH (λ c Hc, Hpos c (list_elem_of_further _ _ _ Hc)) Ha). lia.
Qed.

Lemma increment_bounds σ newUnits unit :
  Forall (λ n, 0 <= PlayerUnit.count (σ n)) newUnits →
  0 <= increment σ newUnits unit <= totalQuantity (σ <$> newUnits).
Proof.
  intros Hpos. rewrite Forall_forall in Hpos.
  assert (0 <= totalQuantity (σ <$> newUnits)) as Htotal.
  { rewrite totalQuantity_sum, <- list_fmap_compose.
    transitivity (foldr Z.add 0 ((λ _, 0) <$> newUnits)).
    - clear. induction newUnits; cbn [fmap list_fmap foldr]; lia.
    - by apply sum_le. }
  unfold increment.
  destruct (matchOf σ newUnits unit) as [n|] eqn:Hfind; [|lia].
  apply Array_find_elem_of in Hfind as [Hn _].
  split; [by apply Hpos|].
  rewrite totalQuantity_sum, <- list_fmap_compose.
  by apply (sum_elem_le (λ n, PlayerUnit.count (σ n))).
Qed.

(** The quantity of a trained unit, when nothing is rounded. *)
Lemma trained_exact σ newUnits citizenUnits unit :
  counted (σ unit) →
  Forall (λ n, counted (σ n)) newUnits →
  sumsSafe 0 (PlayerUnit.count <$> (σ <$> newUnits)) →
  Double.safe
    (PlayerUnit.count (σ unit)
     - (if decide (unit = citizenUnits)
        then totalQuantity (σ <$> newUnits) else 0)) →
  Double.safe (trainedCount σ newUnits citizenUnits unit) →
  PlayerUnit.quantity (trainedUnit σ newUnits citizenUnits unit)
  = Double.of_Z (trainedCount σ newUnits citizenUnits unit).
Proof.
  intros Hunit Hnew Htotal Hpaid Hgained.
  destruct (total_exact σ newUnits Hnew Htotal) as [Htotal' Hsafe].
  rewrite Forall_forall in Hnew.
  unfold trainedUnit, trainedCount, increment in *.
  cbn [PlayerUnit.quantity PlayerUnit.set_quantity].
  assert (paid σ newUnits citizenUnits unit
          = Double.of_Z
              (PlayerUnit.count (σ unit)
               - (if decide (unit = citizenUnits)
                  then totalQuantity (σ <$> newUnits) else 0))) as Hp.
  { unfold paid. case_decide.
    - rewrite Htotal', Double_sub_value;
        rewrite ?Double_value_of_Z by done;
        [done | done | by apply Double_exact_of_Z | done].
    - rewrite Z.sub_0_r. apply Hunit. }
  unfold gained. rewrite Hp.
  destruct (matchOf σ newUnits unit) as [n|] eqn:Hfind.
  - apply Array_find_elem_of in Hfind as [Hn _].
    destruct (Hnew n Hn) as [Hq Hcount]. rewrite Hq at 1.
    by rewrite Double_add_exact.
  - by rewrite Z.add_0_r.
Qed.

(** X16.  Training conserves the population when the unit objects are
    distinct and unshared, the units hold a CITIZEN, no two units and no
    two entries of [newUnits] have the same type and level, and the
    quantities are nonnegative integers small enough for every sum to be
    exact: the population and twice the total requested make at most
    2^53. *)
Lemma trainNewUnits_conserves_population newUnits s :
  let σ := objects s in
  let us := units (self s) in
  NoDup us →
  (∀ l, l ∈ us → l ∉ newUnits) →
  (∃ unit, unit ∈ us ∧ PlayerUnit.type (σ unit) = "CITIZEN") →
  distinctKinds (σ <$> us) →
  distinctKinds (σ <$> newUnits) →
  Forall (λ l, counted (σ l) ∧ 0 <= PlayerUnit.count (σ l)) (us ++ newUnits) →
  totalQuantity (σ <$> us) + 2 * totalQuantity (σ <$> newUnits) <= 2 ^ 53 →
  ∃ s', trainNewUnits newUnits s = Some s'
    ∧ population (objects s') (self s') = population σ (self s)
    ∧ Double.to_Z (population σ (self s)) = Some (totalQuantity (σ <$> us)).
Proof.
  intros σ us Hnodup Hfresh Hhas Hus Hnew Hexact Hbound.
  apply (Array_find_is_Some (λ unit, PlayerUnit.type (σ unit) = "CITIZEN"))
    in Hhas as [citizenUnits Hcitizen].
  destruct (trainNewUnits_effect newUnits s citizenUnits Hnodup Hfresh Hcitizen)
    as (s' & Hrun & Hunits & Heffect & Hframe).
  fold σ us in Hunits, Heffect, Hframe.
  apply Array_find_elem_of in Hcitizen as [Hcin _].
  set (T := totalQuantity (σ <$> newUnits)) in *.
  set (P := totalQuantity (σ <$> us)) in *.
  apply Forall_app in Hexact as [Hexact Hexact'].
  rewrite Forall_forall in Hexact, Hexact'.
  assert (Hpos' : Forall (λ n, 0 <= PlayerUnit.count (σ n)) newUnits)
    by (apply Forall_forall; intros n Hn; by apply Hexact').
  assert (Hcounted' : Forall (λ n, counted (σ n)) newUnits)
    by (apply Forall_forall; intros n Hn; by apply Hexact').
  assert (0 <= T) as HT.
  { pose proof (increment_bounds σ newUnits 0%nat Hpos'). subst T. lia. }
  assert (0 <= P) as HP.
  { subst P. rewrite totalQuantity_sum, <- list_fmap_compose.
    transitivity (foldr Z.add 0 ((λ _, 0) <$> us)).
    - clear. induction us; cbn [fmap list_fmap foldr]; lia.
    - apply sum_le. intros l Hl. by apply Hexact. }
  assert (Htotal : sumsSafe 0 (PlayerUnit.count <$> (σ <$> newUnits))).
  { apply sumsSafe_nonneg; [done| |].
    - rewrite <- list_fmap_compose. by apply Forall_fmap.
    - rewrite <- totalQuantity_sum. fold T. lia. }
  (* the population before *)
  assert (Hbefore : population σ (self s) = Double.of_Z P).
  { unfold population. fold us.
    rewrite (fold_left_exact (λ l, PlayerUnit.quantity (σ l))).
    - subst P. by rewrite Z.add_0_l, totalQuantity_sum, <- list_fmap_compose.
    - apply Forall_forall. intros l Hl. by apply Hexact.
    - apply sumsSafe_nonneg; [done| |].
      + apply Forall_fmap, Forall_forall. intros l Hl. by apply Hexact.
      + change (λ a, Double.value (PlayerUnit.quantity (σ a)))
          with (PlayerUnit.count ∘ σ).
        rewrite list_fmap_compose, <- totalQuantity_sum. fold P. lia. }
  (* what the units and the appended entries count afterwards *)
  set (appended := filter _ newUnits) in Hunits.
  set (bound := λ l, PlayerUnit.count (σ l)
                     + 1 * (if decide (l = citizenUnits) then T else 0)
                     + increment σ newUnits l).
  assert (Hincrements :
    foldr Z.add 0 (increment σ newUnits <$> us)
    + foldr Z.add 0 ((λ n, PlayerUnit.count (σ n)) <$> appended) = T).
  { pose proof (increments_total σ us newUnits Hus Hnew) as Hinc.
    fold T in Hinc. rewrite <- Hinc. f_equal.
    rewrite totalQuantity_sum, <- (appended_values σ σ) by done.
    by rewrite <- list_fmap_compose. }
  assert (Hbounds : foldr Z.add 0 (bound <$> us)
                    + foldr Z.add 0 ((λ n, PlayerUnit.count (σ n)) <$> appended)
                    = P + 2 * T).
  { pose proof (trained_total σ newUnits citizenUnits us 1 Hnodup) as Hsum.
    fold P T in Hsum. fold bound in Hsum.
    rewrite decide_True in Hsum by done. lia. }
  assert (Hbound_pos : ∀ l, l ∈ us → 0 <= bound l).
  { intros l Hl. unfold bound.
    pose proof (increment_bounds σ newUnits l Hpos').
    destruct (Hexact l Hl). case_decide; lia. }
  assert (Happended_pos :
    0 <= foldr Z.add 0 ((λ n, PlayerUnit.count (σ n)) <$> appended)).
  { transitivity (foldr Z.add 0 ((λ _, 0) <$> appended)).
    - clear. induction appended; cbn [fmap list_fmap foldr]; lia.
    - apply sum_le. intros n [_ Hn]%list_elem_of_filter. by apply Hexact'. }
  assert (Hafter : ∀ l, l ∈ us →
    PlayerUnit.quantity (objects s' l)
    = Double.of_Z (trainedCount σ newUnits citizenUnits l)
    ∧ Z.abs (trainedCount σ newUnits citizenUnits l) <= bound l
    ∧ Double.safe (trainedCount σ newUnits citizenUnits l)).
  { intros l Hl.
    pose proof (increment_bounds σ newUnits l Hpos') as Hinc. fold T in Hinc.
    destruct (Hexact l Hl) as [Hcounted Hpos].
    pose proof (sum_elem_le bound us l Hbound_pos Hl) as Hle.
    assert (bound l
            = PlayerUnit.count (σ l)
              + 1 * (if decide (l = citizenUnits) then T else 0)
              + increment σ newUnits l) as Hb by done.
    assert (Z.abs (trainedCount σ newUnits citizenUnits l) <= bound l) as Habs.
    { unfold trainedCount. fold T. destruct (decide (l = citizenUnits)); lia. }
    assert (Double.safe (trainedCount σ newUnits citizenUnits l)) as Hsafe.
    { unfold Double.safe. lia. }
    split_and!; [|done..].
    rewrite (Heffect l Hl). apply trained_exact; try done.
    fold T. unfold Double.safe.
    destruct (decide (l = citizenUnits)); lia. }
  exists s'. split; [done|]. split; [|rewrite Hbefore; apply Double_to_Z_of_Z;
                                     unfold Double.safe; lia].
  rewrite Hbefore. unfold population. rewrite Hunits.
  set (after := λ l, if decide (l ∈ us)
                     then trainedCount σ newUnits citizenUnits l
                     else PlayerUnit.count (σ l)).
  assert (Hvalues : ∀ l, l ∈ us ++ appended →
    PlayerUnit.quantity (objects s' l) = Double.of_Z (after l)
    ∧ Double.safe (after l)).
  { intros l Hl. unfold after. case_decide as Hin.
    - by destruct (Hafter l Hin) as (? & _ & ?).
    - apply elem_of_app in Hl as [Hl|[_ Hl]%list_elem_of_filter]; [done|].
      rewrite Hframe by done. by destruct (Hexact' l Hl) as [[? ?] _]. }
  assert (Hafters : (λ l, Double.value (PlayerUnit.quantity (objects s' l)))
                    <$> (us ++ appended)
                    = after <$> (us ++ appended)).
  { apply list_fmap_ext. intros i l Hl%list_elem_of_lookup_2.
    destruct (Hvalues l Hl) as [-> ?]. by apply Double_value_of_Z. }
  assert (Hsplit : after <$> (us ++ appended)
                   = (trainedCount σ newUnits citizenUnits <$> us)
                     ++ ((λ n, PlayerUnit.count (σ n)) <$> appended)).
  { rewrite fmap_app. f_equal.
    - apply list_fmap_ext. intros i l Hl%list_elem_of_lookup_2.
      unfold after. by rewrite decide_True.
    - apply list_fmap_ext. intros i n Hn%list_elem_of_lookup_2.
      unfold after. rewrite decide_False; [done|].
      apply list_elem_of_filter in Hn as [_ Hn]. intros Hin.
      by apply (Hfresh n). }
  assert (Htrained :
    foldr Z.add 0 (trainedCount σ newUnits citizenUnits <$> us)
    = P - T + foldr Z.add 0 (increment σ newUnits <$> us)).
  { pose proof (trained_total σ newUnits citizenUnits us (-1) Hnodup) as Hsum.
    fold P T in Hsum. rewrite decide_True in Hsum by done.
    replace (P - T) with (P + -1 * T) by lia. rewrite <- Hsum.
    f_equal; try (apply list_fmap_ext; intros i l _; unfold trainedCount;
                  fold T; lia). }
  rewrite (fold_left_exact (λ l, PlayerUnit.quantity (objects s' l))).
  - rewrite Hafters, Hsplit, sum_app. f_equal. lia.
  - apply Forall_forall. intros l Hl. destruct (Hvalues l Hl) as [-> ?].
    by apply Double_exact_of_Z.
  - rewrite Hafters, Hsplit. apply sumsSafe_abs.
    rewrite fmap_app, sum_app, <- !list_fmap_compose.
    assert (foldr Z.add 0
              (Z.abs ∘ trainedCount σ newUnits citizenUnits <$> us)
            <= foldr Z.add 0 (bound <$> us)) as Hle.
    { apply sum_le. intros l Hl. by destruct (Hafter l Hl) as (_ & ? & _). }
    assert (foldr Z.add 0
              (Z.abs ∘ (λ n, PlayerUnit.count (σ n)) <$> appended)
            = foldr Z.add 0 ((λ n, PlayerUnit.count (σ n)) <$> appended))
      as ->.
    { f_equal. apply list_fmap_ext.
      intros i n [_ Hn]%list_elem_of_lookup_2%list_elem_of_filter.
      cbn. destruct (Hexact' n Hn). lia. }
    lia.
Qed.

Lemma trainNewUnits_conserves_population_witness :
  (NoDup (units (self plainTraining))
   ∧ (∀ l, l ∈ units (self plainTraining) → l ∉ [2; 3]%nat)
   ∧ (∃ unit, unit ∈ units (self plainTraining)
              ∧ PlayerUnit.type (objects plainTraining unit) = "CITIZEN")
   ∧ distinctKinds (objects plainTraining <$> units (self plainTraining))
   ∧ distinctKinds (objects plainTraining <$> [2; 3]%nat)
   ∧ Forall (λ l, counted (objects plainTraining l)
                  ∧ 0 <= PlayerUnit.count (objects plainTraining l))
       (units (self plainTraining) ++ [2; 3]%nat)
   ∧ totalQuantity (objects plainTraining <$> units (self plainTraining))
     + 2 * totalQuantity (objects plainTraining <$> [2; 3]%nat) <= 2 ^ 53)
  ∧ ∃ s', trainNewUnits [2%nat; 3%nat] plainTraining = Some s'
      ∧ population (objects s') (self s')
        = population (objects plainTraining) (self plainTraining)
      ∧ Double.to_Z (population (objects plainTraining) (self plainTraining))
        = Some
            (totalQuantity
               (objects plainTraining <$> units (self plainTraining))).
Proof.
  assert (Hnodup : NoDup (units (self plainTraining))) by compute_done.
  assert (Hfresh : ∀ l, l ∈ units (self plainTraining) → l ∉ [2; 3]%nat).
  { intros l Hl. cbn in Hl. rewrite !elem_of_cons, elem_of_nil in Hl.
    destruct Hl as [->|[->|[]]]; compute_done. }
  assert (Hhas : ∃ unit, unit ∈ units (self plainTraining)
            ∧ PlayerUnit.type (objects plainTraining unit) = "CITIZEN").
  { exists 0%nat. split; [left | reflexivity]. }
  assert (Hus : distinctKinds
            (objects plainTraining <$> units (self plainTraining))).
  { intros i j a b Hi Hj Hsame.
    destruct i as [|[|i]], j as [|[|j]]; try done;
      cbn in Hi, Hj; simplify_eq; by destruct Hsame. }
  assert (Hnew : distinctKinds (objects plainTraining <$> [2; 3]%nat)).
  { intros i j a b Hi Hj Hsame.
    destruct i as [|[|i]], j as [|[|j]]; try done;
      cbn in Hi, Hj; simplify_eq; by destruct Hsame. }
  assert (Hexact : Forall
            (λ l, counted (objects plainTraining l)
                  ∧ 0 <= PlayerUnit.count (objects plainTraining l))
            (units (self plainTraining) ++ [2; 3]%nat)).
  { repeat constructor; vm_compute; discriminate. }
  assert (Hbound :
    totalQuantity (objects plainTraining <$> units (self plainTraining))
    + 2 * totalQuantity (objects plainTraining <$> [2; 3]%nat) <= 2 ^ 53)
    by (vm_compute; discriminate).
  split; [by split_and! |].
  exact (trainNewUnits_conserves_population [2%nat; 3%nat] plainTraining
           Hnodup Hfresh Hhas Hus Hnew Hexact Hbound).
Defined.

(** C8, at its failing input.  Two and three workers requested as two
    entries: the citizens give up five, the workers gain the two of the
    first entry only, and the population drops from 15 to 12. *)
Theorem trainNewUnits_split_entries :
  ∃ s', trainNewUnits [2%nat; 3%nat] splitTraining = Some s'
    ∧ objects s' <$> units (self s')
      = [PlayerUnit.mk "CITIZEN" 1 (Double.of_Z 5);
         PlayerUnit.mk "WORKER" 1 (Double.of_Z 7)]
    ∧ population (objects splitTraining) (self splitTraining)
      = Double.of_Z 15
    ∧ population (objects s') (self s') = Double.of_Z 12.
Proof.
  eexists. split; [vm_compute; reflexivity|].
  split_and!; vm_compute; reflexivity.
Qed.


End TrainNewUnits.

(** * Levels, continued *)

Lemma level_None this :
  UserModel.level this = None ↔ UserModel.experience this < 0.
Proof.
  rewrite level_cases. cbv zeta. repeat case_decide; split; (done || lia).
Qed.

Lemma level_Some_key this lvl :
  UserModel.level this = Some lvl → ∃ xp, (lvl, xp) ∈ Levels.
Proof.
  rewrite level_cases. cbv zeta.
  repeat case_decide; intros [= <-]; eexists; apply elem_of_Levels; eauto 6.
Qed.

(** X1.  [level] throws exactly when the experience is negative; when it
    returns, the result is one of the four levels of [Levels]. *)
Theorem level_defined this :
  (UserModel.level this = None ↔ UserModel.experience this < 0)
  ∧ ∀ lvl, UserModel.level this = Some lvl →
      1 <= lvl <= 4 ∧ ∃ xp, (lvl, xp) ∈ Levels.
Proof.
  split; [apply level_None|]. intros lvl Hlvl. split; [|by eapply level_Some_key].
  apply level_Some_key in Hlvl as [xp Hin]. levels_cases Hin; lia.
Qed.

(** X2.  More experience never gives a lower level. *)
Theorem level_monotone a b la lb :
  UserModel.experience a <= UserModel.experience b →
  UserModel.level a = Some la → UserModel.level b = Some lb →
  la <= lb.
Proof.
  rewrite !level_cases. cbv zeta. intros Hle.
  repeat case_decide; intros [= <-] [= <-]; lia.
Qed.

Lemma level_monotone_witness :
  (UserModel.experience (exampleUser 100 1 50 [])
     <= UserModel.experience (exampleUser 700 1 50 [])
   ∧ UserModel.level (exampleUser 100 1 50 []) = Some 1
   ∧ UserModel.level (exampleUser 700 1 50 []) = Some 3)
  ∧ 1 <= 3.
Proof.
  assert (Hle : UserModel.experience (exampleUser 100 1 50 [])
                <= UserModel.experience (exampleUser 700 1 50 []))
    by (cbn; lia).
  assert (Ha : UserModel.level (exampleUser 100 1 50 []) = Some 1)
    by reflexivity.
  assert (Hb : UserModel.level (exampleUser 700 1 50 []) = Some 3)
    by reflexivity.
  split; [by split_and! |].
  exact (level_monotone _ _ 1 3 Hle Ha Hb).
Defined.

(** X3.  For a positive experience the getter returns the greatest level
    whose threshold lies strictly below the experience, that is the level
    the table gives to one point less. *)
Theorem level_strictly_below this lvl :
  0 < UserModel.experience this →
  UserModel.level this = Some lvl
  ↔ isLevelOf (UserModel.experience this - 1) lvl.
Proof.
  intros Hpos. rewrite level_cases. cbv zeta.
  set (xp := UserModel.experience this) in *.
  assert (Hspec : ∀ l t,
    (l, t) ∈ Levels → t <= xp - 1 →
    (∀ l' t', (l', t') ∈ Levels → t' <= xp - 1 → l' <= l) →
    Some l = Some lvl ↔ isLevelOf (xp - 1) lvl).
  { intros l t Hin Hle Hmax. split.
    - intros [= <-]. split; eauto.
    - intros Hk. f_equal.
      apply (isLevelOf_unique (xp - 1)); [split; eauto | done]. }
  repeat case_decide; try lia.
  - apply (Hspec 1 0); [apply elem_of_Levels; tauto | lia |].
    intros l' t' Hin' ?. levels_cases Hin'; lia.
  - apply (Hspec 2 200); [apply elem_of_Levels; tauto | lia |].
    intros l' t' Hin' ?. levels_cases Hin'; lia.
  - apply (Hspec 3 500); [apply elem_of_Levels; tauto | lia |].
    intros l' t' Hin' ?. levels_cases Hin'; lia.
  - apply (Hspec 4 1000); [apply elem_of_Levels; tauto | lia |].
    intros l' t' Hin' ?. levels_cases Hin'; lia.
Qed.

Lemma level_strictly_below_witness :
  0 < UserModel.experience (exampleUser 200 1 50 [])
  ∧ (UserModel.level (exampleUser 200 1 50 []) = Some 1
     ↔ isLevelOf (UserModel.experience (exampleUser 200 1 50 []) - 1) 1).
Proof.
  assert (Hpos : 0 < UserModel.experience (exampleUser 200 1 50 []))
    by (cbn; lia).
  split; [done |].
  exact (level_strictly_below (exampleUser 200 1 50 []) 1 Hpos).
Defined.

Lemma xpToNextLevel_None this :
  UserModel.xpToNextLevel this = None ↔ UserModel.experience this < 0.
Proof.
  unfold UserModel.xpToNextLevel. rewrite <- level_None.
  destruct (UserModel.level this); cbn; split; done.
Qed.

(** X4.  Up to the last threshold, [xpToNextLevel] is a number between 0
    and 500, and adding it to the experience gives the threshold of the
    level after the one [level] returns. *)
Theorem xpToNextLevel_in_range this :
  0 <= UserModel.experience this <= 1000 →
  ∃ missing lvl,
    UserModel.xpToNextLevel this = Some (Num missing)
    ∧ 0 <= missing <= 500
    ∧ UserModel.level this = Some (lvl - 1)
    ∧ (lvl, UserModel.experience this + missing) ∈ Levels.
Proof.
  intros Hrange. unfold UserModel.xpToNextLevel. rewrite level_cases. cbv zeta.
  set (xp := UserModel.experience this) in *.
  destruct (decide (xp = 0)) as [Hzero|Hnonzero].
  { exists 200, 2. rewrite Hzero. split_and!; try done.
    apply elem_of_Levels. tauto. }
  repeat case_decide; try lia.
  - exists (200 - xp), 2. split_and!; [done | lia | lia | done |].
    replace (xp + (200 - xp)) with 200 by lia. apply elem_of_Levels. tauto.
  - exists (500 - xp), 3. split_and!; [done | lia | lia | done |].
    replace (xp + (500 - xp)) with 500 by lia. apply elem_of_Levels. tauto.
  - exists (1000 - xp), 4. split_and!; [done | lia | lia | done |].
    replace (xp + (1000 - xp)) with 1000 by lia. apply elem_of_Levels. tauto.
Qed.

Lemma xpToNextLevel_in_range_witness :
  0 <= UserModel.experience (exampleUser 350 1 50 []) <= 1000
  ∧ ∃ missing lvl,
      UserModel.xpToNextLevel (exampleUser 350 1 50 []) = Some (Num missing)
      ∧ 0 <= missing <= 500
      ∧ UserModel.level (exampleUser 350 1 50 []) = Some (lvl - 1)
      ∧ (lvl, UserModel.experience (exampleUser 350 1 50 []) + missing)
        ∈ Levels.
Proof.
  assert (Hrange : 0 <= UserModel.experience (exampleUser 350 1 50 [])
                   <= 1000) by (cbn; lia).
  split; [done |].
  exact (xpToNextLevel_in_range (exampleUser 350 1 50 []) Hrange).
Defined.

(** X5.  Past the last threshold there is no next level: [Levels] has no
    entry for it and [xpToNextLevel] is NaN; it is NaN in no other case. *)
Theorem xpToNextLevel_NaN this :
  UserModel.xpToNextLevel this = Some NaN ↔ 1000 < UserModel.experience this.
Proof.
  unfold UserModel.xpToNextLevel. rewrite level_cases. cbv zeta.
  repeat case_decide; cbn; split; (done || lia).
Qed.

(** * Population and army *)

Lemma totalQuantity_filter (P : PlayerUnit.t → Prop) `{!∀ u, Decision (P u)}
    (units : list PlayerUnit.t) :
  totalQuantity units
  = totalQuantity (filter P units) + totalQuantity (filter (λ u, ¬ P u) units).
Proof.
  unfold totalQuantity. induction units as [|u units IH]; [done|].
  rewrite !filter_cons. cbn [foldr]. destruct (decide (P u)).
  - rewrite decide_False by tauto. cbn [foldr]. lia.
  - rewrite decide_True by tauto. cbn [foldr]. lia.
Qed.

Lemma totalQuantity_nonneg units :
  Forall (λ u, 0 <= PlayerUnit.count u) units → 0 <= totalQuantity units.
Proof.
  unfold totalQuantity. induction 1 as [|u units Hu _ IH]; cbn [foldr]; lia.
Qed.

(** The [reduce] of [population] and [armySize], when nothing is
    rounded. *)
Lemma quantities_exact (σ : heap) (units : list loc) :
  Forall (λ unit, counted (σ unit) ∧ 0 <= PlayerUnit.count (σ unit)) units →
  totalQuantity (σ <$> units) <= 2 ^ 53 →
  fold_left (λ acc unit, Double.add acc (PlayerUnit.quantity (σ unit)))
    units (Double.of_Z 0)
  = Double.of_Z (totalQuantity (σ <$> units)).
Proof.
  intros Hexact Hbound. rewrite Forall_forall in Hexact.
  rewrite totalQuantity_sum, <- list_fmap_compose in *.
  rewrite (fold_left_exact (λ l, PlayerUnit.quantity (σ l))).
  - by rewrite Z.add_0_l.
  - apply Forall_forall. intros l Hl. by apply Hexact.
  - apply sumsSafe_nonneg; [done| |by rewrite Z.add_0_l].
    apply Forall_fmap, Forall_forall. intros l Hl. by apply Hexact.
Qed.

Lemma Forall_filter_keeps {A} (P Q : A → Prop) `{!∀ x, Decision (P x)}
    (l : list A) :
  Forall Q l → Forall Q (filter P l).
Proof.
  rewrite !Forall_forall. intros Hall x [_ Hx]%list_elem_of_filter. auto.
Qed.

Lemma filter_fmap_store (σ : heap) (P : PlayerUnit.t → Prop)
    `{!∀ l, Decision (P (σ l)), !∀ u, Decision (P u)} (units : list loc) :
  σ <$> filter (λ l, P (σ l)) units = filter P (σ <$> units).
Proof.
  induction units as [|l units IH]; [done|].
  rewrite fmap_cons, !filter_cons.
  destruct (decide (P (σ l))) as [HP|HP].
  - rewrite decide_True by done. by rewrite fmap_cons, IH.
  - by rewrite decide_False by done.
Qed.

(** X6.  When the quantities are nonnegative integers and their sum is at
    most 2^53, the population is the army plus the CITIZEN and WORKER
    units, and the army is at most the population. *)
Theorem population_split σ this :
  Forall (λ unit, counted (σ unit) ∧ 0 <= PlayerUnit.count (σ unit))
    (UserModel.units this) →
  totalQuantity (σ <$> UserModel.units this) <= 2 ^ 53 →
  ∃ population armySize,
    Double.to_Z (UserModel.population σ this) = Some population
    ∧ Double.to_Z (UserModel.armySize σ this) = Some armySize
    ∧ population
      = armySize
        + totalQuantity (filter isCivilian (σ <$> UserModel.units this))
    ∧ 0 <= armySize <= population.
Proof.
  intros Hexact Hbound.
  assert (Hall : Forall (λ u, 0 <= PlayerUnit.count u)
                   (σ <$> UserModel.units this)).
  { apply Forall_fmap. eapply Forall_impl; [exact Hexact|]. by intros l [_ ?]. }
  pose proof (totalQuantity_nonneg _
                (Forall_filter_keeps isCivilian _ _ Hall)) as Hcivil.
  pose proof (totalQuantity_nonneg _
                (Forall_filter_keeps
                   (λ u, PlayerUnit.type u ≠ "CITIZEN"
                         ∧ PlayerUnit.type u ≠ "WORKER") _ _ Hall)) as Harmy.
  pose proof (totalQuantity_filter isCivilian (σ <$> UserModel.units this))
    as Hsplit.
  rewrite (list_filter_iff (λ u, ¬ isCivilian u)
             (λ u, PlayerUnit.type u ≠ "CITIZEN"
                   ∧ PlayerUnit.type u ≠ "WORKER")) in Hsplit
    by (intros u; unfold isCivilian; tauto).
  rewrite <- (filter_fmap_store σ
                (λ u, PlayerUnit.type u ≠ "CITIZEN"
                      ∧ PlayerUnit.type u ≠ "WORKER")) in Hsplit, Harmy.
  unfold UserModel.population, UserModel.armySize.
  rewrite !quantities_exact; [|by apply Forall_filter_keeps|lia|done|done].
  eexists _, _. split_and!;
    [apply Double_to_Z_of_Z; unfold Double.safe; lia..|lia|lia|lia].
Qed.

Lemma population_split_witness :
  (Forall (λ unit, counted (exampleStore unit)
                   ∧ 0 <= PlayerUnit.count (exampleStore unit)) [0; 1; 2]%nat
   ∧ totalQuantity (exampleStore <$> [0; 1; 2]%nat) <= 2 ^ 53)
  ∧ ∃ population armySize,
      Double.to_Z
        (UserModel.population exampleStore
           (exampleUser 0 3 200 [0; 1; 2]%nat)) = Some population
      ∧ Double.to_Z
          (UserModel.armySize exampleStore
             (exampleUser 0 3 200 [0; 1; 2]%nat)) = Some armySize
      ∧ population
        = armySize
          + totalQuantity (filter isCivilian (exampleStore <$> [0; 1; 2]%nat))
      ∧ 0 <= armySize <= population.
Proof.
  assert (Hexact : Forall
            (λ unit, counted (exampleStore unit)
                     ∧ 0 <= PlayerUnit.count (exampleStore unit))
            [0; 1; 2]%nat)
    by (repeat constructor; vm_compute; discriminate).
  assert (Hbound : totalQuantity (exampleStore <$> [0; 1; 2]%nat) <= 2 ^ 53)
    by (vm_compute; discriminate).
  split; [by split |].
  exact (population_split exampleStore (exampleUser 0 3 200 [0; 1; 2]%nat)
           Hexact Hbound).
Defined.

(** * The tables *)

Lemma Fortifications_Some k fortification :
  Fortifications !! k = Some fortification →
  1 <= k <= 24
  ∧ Fortification.goldPerTurn fortification = 1000 * k
  ∧ 0 < Fortification.hitpoints fortification.
Proof.
  unfold Fortifications. intros Hin.
  apply elem_of_list_to_map in Hin; [|compute_done].
  repeat (apply elem_of_cons in Hin as [[= -> ->]|Hin]; [cbn; lia|]).
  by apply elem_of_nil in Hin.
Qed.

Lemma Fortifications_is_Some k :
  is_Some (Fortifications !! k) ↔ 1 <= k <= 24.
Proof.
  split.
  - intros [f Hf]. by apply Fortifications_Some in Hf as [? _].
  - intros Hk.
    assert (Hcases : Exists (λ n, k = n) (Z.of_nat <$> seq 1 24)).
    { apply Exists_exists. exists k. split; [|done].
      apply list_elem_of_fmap. exists (Z.to_nat k). split; [lia|].
      apply elem_of_seq. lia. }
    cbn in Hcases.
    repeat (apply Exists_cons in Hcases as [->|Hcases]; [by eexists|]).
    by apply Exists_nil in Hcases.
Qed.

Lemma Fortifications_None k :
  Fortifications !! k = None ↔ ¬ (1 <= k <= 24).
Proof. by rewrite eq_None_not_Some, Fortifications_is_Some. Qed.

Lemma worker_found (unit : PlayerUnit.t) :
  PlayerUnit.type unit = "WORKER" →
  is_Some (Array_find
             (λ unitType, Unit.type unitType = PlayerUnit.type unit
                          ∧ Unit.level unitType = PlayerUnit.level unit)
             UnitTypes)
  ↔ PlayerUnit.level unit = 1.
Proof.
  intros Hw.
  rewrite (Array_find_is_Some
    (λ unitType, Unit.type unitType = PlayerUnit.type unit
                 ∧ Unit.level unitType = PlayerUnit.level unit)).
  split.
  - intros (t & Hin & Ht & Hl). rewrite Hw in Ht.
    apply worker_unitType in Hin as [Hone _]; [|done]. congruence.
  - intros Hone. exists (Unit.mk "Worker" "WORKER" 1 65 2000).
    split_and!; [left | by rewrite Hw | by rewrite Hone].
Qed.

(** * Gold per turn, continued *)

Lemma goldPerTurn_None σ this :
  UserModel.goldPerTurn σ this = None
  ↔ Exists (λ unit, PlayerUnit.type (σ unit) = "WORKER"
                    ∧ PlayerUnit.level (σ unit) ≠ 1) (UserModel.units this)
    ∨ ¬ (1 <= UserModel.fortLevel this <= 24).
Proof.
  unfold UserModel.goldPerTurn. cbv zeta.
  set (gold := λ unit : loc, _).
  set (workerUnits := filter _ (UserModel.units this)).
  rewrite <- Fortifications_None.
  assert (Hgold : ∀ unit, unit ∈ workerUnits →
            gold unit = None ↔ PlayerUnit.level (σ unit) ≠ 1).
  { intros unit [Hw _]%list_elem_of_filter. unfold gold.
    pose proof (worker_found (σ unit) Hw) as Hfound.
    destruct (Array_find _ UnitTypes) as [t|]; cbn.
    - split; [done|]. intros Hne. destruct Hne. apply Hfound. by eexists.
    - split; [|done]. intros _ Hone. apply Hfound in Hone as [? [=]]. }
  assert (Hworkers : mapM gold workerUnits = None
            ↔ Exists (λ unit, PlayerUnit.type (σ unit) = "WORKER"
                              ∧ PlayerUnit.level (σ unit) ≠ 1)
                (UserModel.units this)).
  { rewrite mapM_None, !Exists_exists. split.
    - intros (unit & Hin & Hnone). exists unit.
      pose proof Hin as [Hw Hunit]%list_elem_of_filter.
      split_and!; [done | done | by apply Hgold].
    - intros (unit & Hin & Hw & Hne). exists unit.
      assert (unit ∈ workerUnits) by by apply list_elem_of_filter.
      split; [done | by apply Hgold]. }
  destruct (mapM gold workerUnits) as [golds|] eqn:Hmap; cbn [mbind option_bind].
  - destruct (Fortifications !! UserModel.fortLevel this); cbn [mbind option_bind].
    + split; [done|]. intros [Hex|?]; [|done]. by apply Hworkers in Hex.
    + split; [by right | done].
  - split; [|done]. intros _. left. by apply Hworkers.
Qed.

(** X7.  [goldPerTurn] returns exactly when every WORKER unit has level 1
    (the only WORKER entry of [UnitTypes]) and [fortLevel] is one of the
    keys 1 to 24 of [Fortifications]; in every other case it throws. *)
Theorem goldPerTurn_returns σ this :
  is_Some (UserModel.goldPerTurn σ this)
  ↔ Forall (λ unit, PlayerUnit.type (σ unit) = "WORKER" →
                    PlayerUnit.level (σ unit) = 1) (UserModel.units this)
    ∧ 1 <= UserModel.fortLevel this <= 24.
Proof.
  rewrite <- not_eq_None_Some, goldPerTurn_None.
  rewrite Forall_forall, Exists_exists. split.
  - intros Hnot. split.
    + intros unit Hin Hw.
      destruct (decide (PlayerUnit.level (σ unit) = 1)) as [|Hne]; [done|].
      destruct Hnot. left. by exists unit.
    + destruct (decide (1 <= UserModel.fortLevel this <= 24)); [done|].
      destruct Hnot. by right.
  - intros [Hworkers Hlevel] [(unit & Hin & Hw & Hne)|Hout]; [|done].
    by apply Hne, Hworkers.
Qed.

Lemma WorkerGold_level_one units gold :
  WorkerGold units gold →
  gold = 65 * totalQuantity (filter (λ u, PlayerUnit.type u = "WORKER") units).
Proof.
  unfold totalQuantity.
  induction 1 as [|u t rest g Hw Hin Ht Hl _ IH|u rest g Hw _ IH].
  - done.
  - rewrite filter_cons_True by done. cbn [foldr].
    apply worker_unitType in Hin as [_ ->]; [lia | congruence].
  - by rewrite filter_cons_False by done.
Qed.

Lemma bonusOf_worker (unit : PlayerUnit.t) :
  PlayerUnit.type unit = "WORKER" → PlayerUnit.level unit = 1 →
  bonusOf unit = 65.
Proof. destruct unit as [type level quantity]. by intros [= ->] [= ->]. Qed.

(** X8.  With the tables as they are, a user whose WORKER units all have
    level 1 and whose [fortLevel] is between 1 and 24 earns 65 gold per
    worker and 1000 gold per fortification level each turn, when the
    numbers of workers are nonnegative integers and that gold is at most
    2^53. *)
Theorem goldPerTurn_closed_form σ this :
  Forall (λ unit, PlayerUnit.type (σ unit) = "WORKER" →
                  PlayerUnit.level (σ unit) = 1
                  ∧ counted (σ unit) ∧ 0 <= PlayerUnit.count (σ unit))
    (UserModel.units this) →
  1 <= UserModel.fortLevel this <= 24 →
  65 * totalQuantity
         (filter (λ u, PlayerUnit.type u = "WORKER")
            (σ <$> UserModel.units this))
  + 1000 * UserModel.fortLevel this <= 2 ^ 53 →
  returnsGold σ this
    (65 * totalQuantity
            (filter (λ u, PlayerUnit.type u = "WORKER")
               (σ <$> UserModel.units this))
     + 1000 * UserModel.fortLevel this).
Proof.
  intros Hworkers Hlevel Hbound. rewrite Forall_forall in Hworkers.
  assert (Hmatch : ∀ unit, unit ∈ UserModel.units this →
            PlayerUnit.type (σ unit) = "WORKER" →
            ∃ unitType, unitType ∈ UnitTypes
              ∧ Unit.type unitType = PlayerUnit.type (σ unit)
              ∧ Unit.level unitType = PlayerUnit.level (σ unit)).
  { intros unit Hin Hw. exists (Unit.mk "Worker" "WORKER" 1 65 2000).
    destruct (Hworkers unit Hin Hw) as (Hone & _).
    split_and!; [left | by rewrite Hw | by rewrite Hone]. }
  assert (Hgold : WorkerGold (σ <$> UserModel.units this)
            (foldr Z.add 0 (workerTerms (σ <$> UserModel.units this)))).
  { apply WorkerGold_terms. intros unit (l & -> & Hl)%list_elem_of_fmap.
    by apply Hmatch. }
  apply WorkerGold_level_one in Hgold.
  assert (Hterms : Forall (λ term, 0 <= term)
            (workerTerms (σ <$> UserModel.units this))).
  { unfold workerTerms. apply Forall_fmap, Forall_forall.
    intros unit [Hw (l & -> & Hl)%list_elem_of_fmap]%list_elem_of_filter.
    destruct (Hworkers l Hl Hw) as (Hone & _ & Hpos).
    change (0 <= bonusOf (σ l) * PlayerUnit.count (σ l)).
    rewrite bonusOf_worker by done. lia. }
  pose proof (totalQuantity_nonneg
                (filter (λ u, PlayerUnit.type u = "WORKER")
                   (σ <$> UserModel.units this))) as Htotal.
  destruct (workerGolds σ (UserModel.units this) 0) as (golds & Hgolds & Hsum).
  { done. }
  { intros unit Hin Hw. by destruct (Hworkers unit Hin Hw) as (_ & ? & _). }
  { apply sumsSafe_nonneg; [done..|]. rewrite Z.add_0_l, Hgold. lia. }
  apply Fortifications_is_Some in Hlevel as [fortification Hfort].
  unfold returnsGold, UserModel.goldPerTurn.
  rewrite Hgolds. cbn [mbind option_bind].
  rewrite Hfort. cbn [mbind option_bind].
  apply Fortifications_Some in Hfort as (Hk & -> & _).
  eexists. split; [reflexivity|].
  assert (0 <= totalQuantity
                 (filter (λ u, PlayerUnit.type u = "WORKER")
                    (σ <$> UserModel.units this))).
  { apply Htotal, Forall_forall.
    intros unit [Hw (l & -> & Hl)%list_elem_of_fmap]%list_elem_of_filter.
    by destruct (Hworkers l Hl Hw) as (_ & _ & ?). }
  rewrite Hsum, Z.add_0_l, Hgold, Double_add_exact
    by (unfold Double.safe; lia).
  apply Double_to_Z_of_Z. unfold Double.safe. lia.
Qed.

Lemma goldPerTurn_closed_form_witness :
  (Forall (λ unit, PlayerUnit.type (exampleStore unit) = "WORKER" →
                   PlayerUnit.level (exampleStore unit) = 1
                   ∧ counted (exampleStore unit)
                   ∧ 0 <= PlayerUnit.count (exampleStore unit))
     [0; 1; 2]%nat
   ∧ 1 <= 3 <= 24
   ∧ 65 * totalQuantity
            (filter (λ u, PlayerUnit.type u = "WORKER")
               (exampleStore <$> [0; 1; 2]%nat))
     + 1000 * 3 <= 2 ^ 53)
  ∧ returnsGold exampleStore (exampleUser 0 3 200 [0; 1; 2]%nat)
      (65 * totalQuantity
              (filter (λ u, PlayerUnit.type u = "WORKER")
                 (exampleStore <$> [0; 1; 2]%nat))
       + 1000 * 3).
Proof.
  assert (Hworkers : Forall
            (λ unit, PlayerUnit.type (exampleStore unit) = "WORKER" →
                     PlayerUnit.level (exampleStore unit) = 1
                     ∧ counted (exampleStore unit)
                     ∧ 0 <= PlayerUnit.count (exampleStore unit))
            [0; 1; 2]%nat).
  { apply Forall_forall. intros unit Hin Hw.
    rewrite !elem_of_cons, elem_of_nil in Hin.
    destruct Hin as [->|[->|[->|[]]]]; try discriminate Hw.
    split_and!;
      [reflexivity | split; [reflexivity | vm_compute; split; discriminate]
      | vm_compute; discriminate]. }
  assert (Hlevel : 1 <= 3 <= 24) by lia.
  assert (Hbound : 65 * totalQuantity
                          (filter (λ u, PlayerUnit.type u = "WORKER")
                             (exampleStore <$> [0; 1; 2]%nat))
                   + 1000 * 3 <= 2 ^ 53)
    by (vm_compute; discriminate).
  split; [by split_and! |].
  exact (goldPerTurn_closed_form exampleStore
           (exampleUser 0 3 200 [0; 1; 2]%nat) Hworkers Hlevel Hbound).
Defined.

(** * Fort health, continued *)

Lemma fortHealth_None this :
  UserModel.fortHealth this = None ↔ ¬ (1 <= UserModel.fortLevel this <= 24).
Proof.
  rewrite <- Fortifications_None. unfold UserModel.fortHealth.
  destruct (Fortifications !! UserModel.fortLevel this); cbn; split; done.
Qed.

(** X9.  [fortHealth] throws exactly when [fortLevel] is not one of the
    keys 1 to 24; at every level of the table a fort at full hit points
    reads 100 percent and a fort at 0 hit points reads 0 percent. *)
Theorem fortHealth_edges this :
  (UserModel.fortHealth this = None
   ↔ ¬ (1 <= UserModel.fortLevel this <= 24))
  ∧ ∀ fortification,
      Fortifications !! UserModel.fortLevel this = Some fortification →
      (UserModel.fortHitpoints this = Fortification.hitpoints fortification →
       FortHealth.percentage <$> UserModel.fortHealth this = Some (Num 100))
      ∧ (UserModel.fortHitpoints this = 0 →
         FortHealth.percentage <$> UserModel.fortHealth this = Some (Num 0)).
Proof.
  split; [apply fortHealth_None|].
  intros fortification Hfort. unfold UserModel.fortHealth. rewrite Hfort.
  cbn [mbind option_bind fmap option_fmap option_map FortHealth.percentage].
  unfold Fortifications in Hfort.
  apply elem_of_list_to_map in Hfort; [|compute_done].
  split; intros ->.
  - repeat (apply elem_of_cons in Hfort as [[= _ ->]|Hfort];
            [vm_compute; reflexivity|]).
    by apply elem_of_nil in Hfort.
  - repeat (apply elem_of_cons in Hfort as [[= _ ->]|Hfort];
            [vm_compute; reflexivity|]).
    by apply elem_of_nil in Hfort.
Qed.

(** * Bank deposits, continued *)

Lemma fetchAvailableBankDeposits_count this depositsUsed :
  UserModel.fetchAvailableBankDeposits this depositsUsed
  = 1 - countOwnDeposits this depositsUsed.
Proof.
  unfold UserModel.fetchAvailableBankDeposits.
  by rewrite <- countOwnDeposits_filter.
Qed.

Lemma countOwnDeposits_nonneg this histories :
  0 <= countOwnDeposits this histories.
Proof.
  induction histories as [|h rest IH]; cbn [countOwnDeposits]; [done|].
  case_decide; lia.
Qed.

Lemma countOwnDeposits_zero this histories :
  countOwnDeposits this histories = 0
  ↔ Forall (λ history, ¬ isOwnDeposit this history) histories.
Proof.
  induction histories as [|h rest IH]; cbn [countOwnDeposits].
  - split; [constructor | done].
  - pose proof (countOwnDeposits_nonneg this rest).
    rewrite Forall_cons, <- IH. case_decide; split; (tauto || lia).
Qed.

(** X10.  The available deposits never exceed [maximumBankDeposits]; one
    is available exactly when the history holds no transfer from the
    user's own hand; the result is not clamped at 0 and is negative as
    soon as the history holds two such transfers. *)
Theorem fetchAvailableBankDeposits_bound this depositsUsed :
  UserModel.fetchAvailableBankDeposits this depositsUsed
    <= UserModel.maximumBankDeposits
  ∧ (0 < UserModel.fetchAvailableBankDeposits this depositsUsed
     ↔ Forall (λ history, ¬ isOwnDeposit this history) depositsUsed)
  ∧ (UserModel.fetchAvailableBankDeposits this depositsUsed < 0
     ↔ 2 <= countOwnDeposits this depositsUsed).
Proof.
  rewrite fetchAvailableBankDeposits_count, <- countOwnDeposits_zero.
  pose proof (countOwnDeposits_nonneg this depositsUsed).
  unfold UserModel.maximumBankDeposits. lia.
Qed.

(** X11.  The available deposits do not depend on the order in which the
    history entries arrive. *)
Theorem fetchAvailableBankDeposits_order this
    (l1 l2 : list BankHistory.t) :
  l1 ≡ₚ l2 →
  UserModel.fetchAvailableBankDeposits this l1
  = UserModel.fetchAvailableBankDeposits this l2.
Proof.
  intros Hperm. rewrite !fetchAvailableBankDeposits_count. f_equal.
  induction Hperm as [|h l1 l2 _ IH|h1 h2 l|l1 l2 l3 _ IH1 _ IH2];
    cbn [countOwnDeposits]; lia.
Qed.

Lemma fetchAvailableBankDeposits_order_witness :
  exampleDeposits ≡ₚ reverse exampleDeposits
  ∧ UserModel.fetchAvailableBankDeposits (exampleUser 0 1 50 [])
      exampleDeposits
    = UserModel.fetchAvailableBankDeposits (exampleUser 0 1 50 [])
        (reverse exampleDeposits).
Proof.
  assert (Hperm : exampleDeposits ≡ₚ reverse exampleDeposits)
    by (symmetry; apply reverse_Permutation).
  split; [done |].
  exact (fetchAvailableBankDeposits_order (exampleUser 0 1 50 []) _ _ Hperm).
Defined.

(** * Training units, continued *)

Section TrainNewUnitsAnyStore.
Import UserModel.

Ltac same_kind :=
  repeat match goal with
         | H : sameKind _ _ |- _ => apply sameKind_kind in H
         end;
  try apply sameKind_kind; congruence.

(** The [forEach] never reads a property of [undefined]: a unit that had
    a match when [unitsToUpdate] was filtered still has one, whatever the
    callbacks before it wrote. *)
Lemma updateExisting_total (newUnits : list loc) :
  ∀ (unitsToUpdate : list loc) (τ : heap),
    (∀ l, l ∈ unitsToUpdate →
       is_Some (Array_find (λ newUnit, sameKind (τ newUnit) (τ l)) newUnits)) →
    ∃ τ', updateExisting newUnits unitsToUpdate τ = Some τ'
      ∧ (∀ l, kind (τ' l) = kind (τ l))
      ∧ (∀ l, l ∉ unitsToUpdate → τ' l = τ l).
Proof.
  induction unitsToUpdate as [|unit rest IH]; intros τ Hmatch.
  - by exists τ.
  - cbn [updateExisting].
    destruct (Hmatch unit) as [newUnit Hfind]; [by left|].
    rewrite Hfind. cbn [mbind option_bind].
    set (τ1 := write_quantity unit _ τ).
    assert (Hkind1 : ∀ l, kind (τ1 l) = kind (τ l))
      by (intros l; apply write_quantity_kind).
    destruct (IH τ1) as (τ' & Hrun & Hkind & Hkept).
    { intros l Hl. rewrite (find_match_kind τ1 τ) by done.
      apply Hmatch. by right. }
    exists τ'. split_and!; [done | |].
    + intros l. by rewrite Hkind.
    + intros l Hl. rewrite Hkept by (intros ?; apply Hl; by right).
      apply write_quantity_other. intros ->. apply Hl. by left.
Qed.

(** [trainNewUnits] on any store, shared objects or not. *)
Lemma trainNewUnits_any newUnits s :
  let σ := objects s in
  let us := units (self s) in
  match Array_find (λ unit, PlayerUnit.type (σ unit) = "CITIZEN") us with
  | None => trainNewUnits newUnits s = None
  | Some _ =>
      ∃ s', trainNewUnits newUnits s = Some s'
        ∧ units (self s')
          = us ++ filter (λ newUnit,
                    ¬ is_Some (Array_find
                                 (λ unit, sameKind (σ unit) (σ newUnit)) us))
                  newUnits
        ∧ (∀ l, kind (objects s' l) = kind (σ l))
        ∧ (∀ l, l ∉ us → objects s' l = σ l)
        ∧ sameButUnits (self s') (self s)
        ∧ daoCalls s'
          = daoCalls s ++ [SetUnits (id (self s)) (units (self s'))]
  end.
Proof.
  intros σ us. unfold trainNewUnits. fold σ us. cbv zeta.
  destruct (Array_find _ us) as [citizenUnits|] eqn:Hcitizen; [|done].
  pose proof (Array_find_elem_of _ _ _ Hcitizen) as [Hcin _].
  cbn [mbind option_bind].
  set (σ1 := write_quantity citizenUnits _ σ).
  assert (Hkind1 : ∀ l, kind (σ1 l) = kind (σ l))
    by (intros l; apply write_quantity_kind).
  set (unitsToUpdate := filter _ us).
  destruct (updateExisting_total newUnits unitsToUpdate σ1)
    as (σ2 & Hrun & Hkind & Hkept).
  { by intros l [Hl _]%list_elem_of_filter. }
  rewrite Hrun. cbn [mbind option_bind].
  assert (Hkind2 : ∀ l, kind (σ2 l) = kind (σ l))
    by (intros l; by rewrite Hkind).
  eexists. split; [reflexivity|]. cbn [self objects units daoCalls set_units].
  rewrite Object_assign_shorter by apply length_filter.
  split_and!; [| done | | done | done].
  - f_equal. apply list_filter_iff. intros n.
    by rewrite (find_match_kind σ2 σ).
  - intros l Hl. rewrite Hkept.
    + apply write_quantity_other. by intros ->.
    + by intros [_ ?]%list_elem_of_filter.
Qed.

(** X13.  [trainNewUnits] throws exactly when the units hold no CITIZEN,
    whatever [newUnits] is and whether or not objects are shared: the
    update loop never meets a unit without a match. *)
Theorem trainNewUnits_throws newUnits s :
  trainNewUnits newUnits s = None
  ↔ Forall (λ unit, PlayerUnit.type (objects s unit) ≠ "CITIZEN")
      (units (self s)).
Proof.
  rewrite <- (Array_find_None
                (λ unit, PlayerUnit.type (objects s unit) = "CITIZEN")).
  pose proof (trainNewUnits_any newUnits s) as Hany. cbv zeta in Hany.
  destruct (Array_find _ _).
  - destruct Hany as (s' & -> & _). split; done.
  - split; done.
Qed.

(** X14.  When [trainNewUnits] returns, the old units are a prefix of the
    new ones and what follows is a sublist of [newUnits] whose entries
    match no old unit; no object changes type or level; an object outside
    the old units is untouched; no other field of the user changes; and
    the one DAO call made carries the new units. *)
Theorem trainNewUnits_keeps newUnits s s' :
  trainNewUnits newUnits s = Some s' →
  (∃ added,
     units (self s') = units (self s) ++ added
     ∧ added `sublist_of` newUnits
     ∧ Forall (λ newUnit,
                 Forall (λ unit, ¬ sameKind (objects s unit)
                                     (objects s newUnit))
                   (units (self s))) added)
  ∧ (∀ l, PlayerUnit.type (objects s' l) = PlayerUnit.type (objects s l)
          ∧ PlayerUnit.level (objects s' l) = PlayerUnit.level (objects s l))
  ∧ (∀ l, l ∉ units (self s) → objects s' l = objects s l)
  ∧ sameButUnits (self s') (self s)
  ∧ daoCalls s' = daoCalls s ++ [SetUnits (id (self s)) (units (self s'))].
Proof.
  intros Hrun. pose proof (trainNewUnits_any newUnits s) as Hany.
  cbv zeta in Hany. destruct (Array_find _ _) as [citizenUnits|]; [|congruence].
  destruct Hany as (s'' & Hrun' & Hunits & Hkind & Hframe & Hfields & Hdao).
  rewrite Hrun in Hrun'. injection Hrun' as <-.
  split_and!; [| | done..].
  - eexists. split; [exact Hunits|]. split; [apply sublist_filter|].
    apply Forall_forall. intros newUnit [Hnone _]%list_elem_of_filter.
    apply eq_None_not_Some in Hnone.
    by apply (Array_find_None
                (λ unit, sameKind (objects s unit) (objects s newUnit)))
      in Hnone.
  - intros l. specialize (Hkind l). unfold kind in Hkind. by injection Hkind.
Qed.

Lemma trainNewUnits_keeps_witness :
  ∃ s', trainNewUnits [2%nat; 3%nat] plainTraining = Some s'
    ∧ (∃ added,
         units (self s') = units (self plainTraining) ++ added
         ∧ added `sublist_of` [2%nat; 3%nat]
         ∧ Forall (λ newUnit,
                     Forall (λ unit, ¬ sameKind (objects plainTraining unit)
                                         (objects plainTraining newUnit))
                       (units (self plainTraining))) added)
      ∧ (∀ l, PlayerUnit.type (objects s' l)
              = PlayerUnit.type (objects plainTraining l)
              ∧ PlayerUnit.level (objects s' l)
                = PlayerUnit.level (objects plainTraining l))
      ∧ (∀ l, l ∉ units (self plainTraining) →
              objects s' l = objects plainTraining l)
      ∧ sameButUnits (self s') (self plainTraining)
      ∧ daoCalls s'
        = daoCalls plainTraining
          ++ [SetUnits (id (self plainTraining)) (units (self s'))].
Proof.
  eexists. split; [vm_compute; reflexivity |].
  apply (trainNewUnits_keeps [2%nat; 3%nat] plainTraining).
  vm_compute. reflexivity.
Defined.

Lemma filter_none {A} (P : A → Prop) `{!∀ x, Decision (P x)} (l : list A) :
  Forall (λ x, ¬ P x) l → filter P l = [].
Proof.
  induction 1 as [|x l Hx _ IH]; [done|]. by rewrite filter_cons_False.
Qed.

(** X15.  Training nothing changes nothing: with a CITIZEN among the
    units, the empty [newUnits] leaves the units list, every object and
    every field as they were. *)
Theorem trainNewUnits_nothing s :
  (∃ unit, unit ∈ units (self s)
           ∧ PlayerUnit.type (objects s unit) = "CITIZEN") →
  ∃ s', trainNewUnits [] s = Some s'
    ∧ units (self s') = units (self s)
    ∧ (∀ l, objects s' l = objects s l)
    ∧ sameButUnits (self s') (self s).
Proof.
  intros Hhas.
  apply (Array_find_is_Some
           (λ unit, PlayerUnit.type (objects s unit) = "CITIZEN"))
    in Hhas as [citizenUnits Hcitizen].
  unfold trainNewUnits. cbv zeta. rewrite Hcitizen. cbn [mbind option_bind].
  rewrite (filter_none _ (units (self s)))
    by (apply Forall_forall; intros l _ [? [=]]).
  cbn [updateExisting mbind option_bind fold_left].
  eexists. split; [reflexivity|]. cbn [self objects units set_units].
  rewrite filter_nil, app_nil_r, Object_assign_shorter by (cbn; lia).
  split_and!; [done | | done].
  intros l. unfold write_quantity. case_decide as Hl; [subst l|done].
  apply set_quantity_id, Double_sub_zero.
Qed.

Lemma trainNewUnits_nothing_witness :
  (∃ unit, unit ∈ units (self plainTraining)
           ∧ PlayerUnit.type (objects plainTraining unit) = "CITIZEN")
  ∧ ∃ s', trainNewUnits [] plainTraining = Some s'
      ∧ units (self s') = units (self plainTraining)
      ∧ (∀ l, objects s' l = objects plainTraining l)
      ∧ sameButUnits (self s') (self plainTraining).
Proof.
  assert (Hhas : ∃ unit, unit ∈ units (self plainTraining)
            ∧ PlayerUnit.type (objects plainTraining unit) = "CITIZEN").
  { exists 0%nat. split; [left | reflexivity]. }
  split; [done |].
  exact (trainNewUnits_nothing plainTraining Hhas).
Defined.

Lemma distinctKinds_NoDup units :
  distinctKinds units ↔ NoDup (kind <$> units).
Proof.
  induction units as [|u units IH].
  - split; [constructor | by intros _ i j a b ?].
  - rewrite distinctKinds_cons, fmap_cons, NoDup_cons, IH.
    rewrite list_elem_of_fmap, Forall_forall. split.
    + intros [Hu Hd]. split; [|done]. intros (other & Hkind & Hin).
      apply (Hu other Hin). by apply sameKind_kind.
    + intros [Hu Hd]. split; [|done]. intros other Hin Hsame.
      apply Hu. exists other. split; [by apply sameKind_kind | done].
Qed.

(** X17.  Units without two entries of one type and level stay so:
    training entries that are themselves of pairwise different type and
    level leaves no two units of the same type and level. *)
Theorem trainNewUnits_keeps_distinct newUnits s s' :
  trainNewUnits newUnits s = Some s' →
  distinctKinds (objects s <$> units (self s)) →
  distinctKinds (objects s <$> newUnits) →
  distinctKinds (objects s' <$> units (self s')).
Proof.
  intros Hrun Hus Hnew. pose proof (trainNewUnits_any newUnits s) as Hany.
  cbv zeta in Hany. destruct (Array_find _ _) as [citizenUnits|]; [|congruence].
  destruct Hany as (s'' & Hrun' & Hunits & Hkind & _).
  rewrite Hrun in Hrun'. injection Hrun' as <-.
  apply distinctKinds_NoDup in Hus, Hnew. apply distinctKinds_NoDup.
  rewrite <- list_fmap_compose in *.
  rewrite (list_fmap_ext (kind ∘ objects s') (kind ∘ objects s))
    by (intros ? l _; apply Hkind).
  rewrite Hunits, fmap_app. apply NoDup_app. split_and!.
  - done.
  - intros k (l & -> & Hl)%list_elem_of_fmap
             (newUnit & Hk & [Hnone _]%list_elem_of_filter)%list_elem_of_fmap.
    apply Hnone. apply Array_find_is_Some. exists l. split; [done|].
    by apply sameKind_kind.
  - eapply sublist_NoDup; [exact Hnew | apply fmap_sublist, sublist_filter].
Qed.

Lemma trainNewUnits_keeps_distinct_witness :
  ∃ s', (trainNewUnits [2%nat; 3%nat] plainTraining = Some s'
         ∧ distinctKinds
             (objects plainTraining <$> units (self plainTraining))
         ∧ distinctKinds (objects plainTraining <$> [2%nat; 3%nat]))
        ∧ distinctKinds (objects s' <$> units (self s')).
Proof.
  assert (Hdistinct : ∀ a b : PlayerUnit.t,
            ¬ sameKind a b → ¬ sameKind b a → distinctKinds [a; b]).
  { intros a b Hab Hba i j x y Hi Hj Hsame.
    destruct i as [|[|i]], j as [|[|j]]; try done;
      cbn in Hi, Hj; simplify_eq; done. }
  assert (Hus : distinctKinds
            (objects plainTraining <$> units (self plainTraining))).
  { apply Hdistinct; by intros [[=] _]. }
  assert (Hnew : distinctKinds (objects plainTraining <$> [2%nat; 3%nat])).
  { apply Hdistinct; by intros [[=] _]. }
  eexists. split; [split_and!; [vm_compute; reflexivity | done | done] |].
  refine (trainNewUnits_keeps_distinct [2%nat; 3%nat] plainTraining _
            _ Hus Hnew).
  vm_compute. reflexivity.
Defined.

Lemma Array_find_app_l {A} (P : A → Prop) `{!∀ x, Decision (P x)}
    (l1 l2 : list A) x :
  Array_find P l1 = Some x → Array_find P (l1 ++ l2) = Some x.
Proof.
  induction l1 as [|y l1 IH]; [done|].
  rewrite <- app_comm_cons, !Array_find_cons. by case_decide.
Qed.

(** X18.  With distinct, unshared unit objects and no CITIZEN among
    [newUnits], training takes the total of [newUnits] off the citizens,
    as long as the quantities, the running sums of the total and the
    difference are safe integers.  Nothing checks that there are that many
    citizens: the count goes negative when more units are requested. *)
Theorem trainNewUnits_citizens newUnits s quantity :
  let σ := objects s in
  let us := units (self s) in
  NoDup us →
  (∀ l, l ∈ us → l ∉ newUnits) →
  citizens σ (self s) = Some quantity →
  Forall (λ newUnit, PlayerUnit.type (σ newUnit) ≠ "CITIZEN") newUnits →
  Double.exact quantity →
  Forall (λ newUnit, counted (σ newUnit)) newUnits →
  sumsSafe 0 (PlayerUnit.count <$> (σ <$> newUnits)) →
  Double.safe (Double.value quantity - totalQuantity (σ <$> newUnits)) →
  ∃ s' quantity',
    trainNewUnits newUnits s = Some s'
    ∧ citizens (objects s') (self s') = Some quantity'
    ∧ Double.to_Z quantity'
      = Some (Double.value quantity - totalQuantity (σ <$> newUnits)).
Proof.
  intros σ us Hnodup Hfresh Hcitizens Hnone Hexact Hnew Htotal Hsafe.
  unfold citizens in Hcitizens. fold σ us in Hcitizens.
  destruct (Array_find _ us) as [citizenUnits|] eqn:Hcitizen; [|done].
  injection Hcitizens as <-.
  destruct (trainNewUnits_effect newUnits s citizenUnits Hnodup Hfresh Hcitizen)
    as (s' & Hrun & Hunits & Heffect & Hframe).
  fold σ us in Hunits, Heffect, Hframe.
  pose proof (Array_find_elem_of _ _ _ Hcitizen) as [Hcin Htype].
  exists s'. eexists. split; [done|]. unfold citizens. rewrite Hunits.
  assert (Hkind : ∀ l, kind (objects s' l) = kind (σ l)).
  { intros l. destruct (decide (l ∈ us)).
    - by rewrite Heffect.
    - by rewrite Hframe. }
  rewrite (Array_find_app_l _ us _ citizenUnits).
  2:{ rewrite <- Hcitizen. apply Array_find_ext. intros l.
      specialize (Hkind l). unfold kind in Hkind. injection Hkind as -> _.
      done. }
  cbn [mbind option_bind]. split; [reflexivity|].
  rewrite (Heffect _ Hcin). unfold trainedUnit.
  cbn [PlayerUnit.quantity PlayerUnit.set_quantity].
  assert (matchOf σ newUnits citizenUnits = None) as Hnomatch.
  { apply (Array_find_None
             (λ newUnit, sameKind (σ newUnit) (σ citizenUnits))).
    eapply Forall_impl; [exact Hnone|]. intros newUnit Hn [Hsame _].
    congruence. }
  destruct (total_exact σ newUnits Hnew Htotal) as [Htotal' Hsafe'].
  unfold gained, paid. rewrite Hnomatch, decide_True, Htotal' by done.
  rewrite Double_sub_value;
    rewrite ?Double_value_of_Z by done;
    [by apply Double_to_Z_of_Z | done | by apply Double_exact_of_Z | done].
Qed.

Lemma trainNewUnits_citizens_witness :
  (NoDup (units (self overdrawnTraining))
   ∧ (∀ l, l ∈ units (self overdrawnTraining) → l ∉ [1%nat])
   ∧ citizens overdrawnStore (self overdrawnTraining)
     = Some (Double.of_Z 10)
   ∧ Forall (λ newUnit, PlayerUnit.type (overdrawnStore newUnit) ≠ "CITIZEN")
       [1%nat]
   ∧ Double.exact (Double.of_Z 10)
   ∧ Forall (λ newUnit, counted (overdrawnStore newUnit)) [1%nat]
   ∧ sumsSafe 0 (PlayerUnit.count <$> (overdrawnStore <$> [1%nat]))
   ∧ Double.safe
       (Double.value (Double.of_Z 10)
        - totalQuantity (overdrawnStore <$> [1%nat])))
  ∧ ∃ s' quantity',
      trainNewUnits [1%nat] overdrawnTraining = Some s'
      ∧ citizens (objects s') (self s') = Some quantity'
      ∧ Double.to_Z quantity'
        = Some (Double.value (Double.of_Z 10)
                - totalQuantity (overdrawnStore <$> [1%nat])).
Proof.
  set (σ := overdrawnStore).
  assert (Hnodup : NoDup (units (self overdrawnTraining))) by compute_done.
  assert (Hfresh : ∀ l, l ∈ units (self overdrawnTraining) → l ∉ [1%nat]).
  { intros l Hl. cbn in Hl. rewrite !elem_of_cons, elem_of_nil in Hl.
    destruct Hl as [->|[]]. compute_done. }
  assert (Hcitizens : citizens σ (self overdrawnTraining)
                      = Some (Double.of_Z 10)) by reflexivity.
  assert (Hnone : Forall
            (λ newUnit, PlayerUnit.type (σ newUnit) ≠ "CITIZEN") [1%nat])
    by compute_done.
  assert (Hexact : Double.exact (Double.of_Z 10))
    by (split; [reflexivity | vm_compute; split; discriminate]).
  assert (Hnew : Forall (λ newUnit, counted (σ newUnit)) [1%nat])
    by (repeat constructor; vm_compute; discriminate).
  assert (Htotal : sumsSafe 0 (PlayerUnit.count <$> (σ <$> [1%nat])))
    by (vm_compute; intuition discriminate).
  assert (Hsafe : Double.safe
            (Double.value (Double.of_Z 10) - totalQuantity (σ <$> [1%nat])))
    by (vm_compute; split; discriminate).
  split; [by split_and! |].
  exact (trainNewUnits_citizens [1%nat] overdrawnTraining (Double.of_Z 10)
           Hnodup Hfresh Hcitizens Hnone Hexact Hnew Htotal Hsafe).
Defined.

(** X22.  Training never takes the CITIZEN entry away: once
    [trainNewUnits] has returned, a further call returns too, whatever it
    is asked to train. *)
Theorem trainNewUnits_again newUnits s s' :
  trainNewUnits newUnits s = Some s' →
  ∀ moreUnits, is_Some (trainNewUnits moreUnits s').
Proof.
  intros Hrun moreUnits.
  pose proof (trainNewUnits_any newUnits s) as Hany. cbv zeta in Hany.
  destruct (Array_find _ _) as [citizenUnits|] eqn:Hcitizen; [|congruence].
  destruct Hany as (s'' & Hrun' & Hunits & Hkind & _).
  rewrite Hrun in Hrun'. injection Hrun' as <-.
  apply Array_find_elem_of in Hcitizen as [Hin Htype].
  pose proof (trainNewUnits_any moreUnits s') as Hnext. cbv zeta in Hnext.
  destruct (Array_find _ (units (self s'))) eqn:Hfind.
  - destruct Hnext as (s'' & -> & _). by eexists.
  - apply Array_find_None in Hfind. rewrite Forall_forall in Hfind.
    destruct (Hfind citizenUnits).
    + rewrite Hunits. apply elem_of_app. by left.
    + specialize (Hkind citizenUnits). unfold kind in Hkind.
      injection Hkind as -> _. done.
Qed.

Lemma trainNewUnits_again_witness :
  ∃ s', trainNewUnits [2%nat; 3%nat] plainTraining = Some s'
    ∧ ∀ moreUnits, is_Some (trainNewUnits moreUnits s').
Proof.
  eexists. split; [vm_compute; reflexivity |].
  apply (trainNewUnits_again [2%nat; 3%nat] plainTraining).
  vm_compute. reflexivity.
Defined.

End TrainNewUnitsAnyStore.

(** * Gold, continued *)

Lemma balancesSafe_head hand bank ops :
  balancesSafe hand bank ops → Double.safe hand ∧ Double.safe bank.
Proof. destruct ops; cbn; tauto. Qed.

(** X12.  After any sequence of [addGold], [subtractGold],
    [addBankedGold] and [subtractBankedGold] with integer amounts, the
    gold is the initial gold plus the amounts added less the amounts
    subtracted, and likewise the banked gold, as long as the amounts and
    the balances after each operation are safe integers; no other field
    and no unit object has changed, and each operation has made one DAO
    call. *)
Theorem runGoldOps_balance ops s hand bank :
  let s' := runGoldOps ops s in
  UserModel.gold (UserModel.self s) = Double.of_Z hand →
  UserModel.goldInBank (UserModel.self s) = Double.of_Z bank →
  balancesSafe hand bank ops →
  Double.to_Z (UserModel.gold (UserModel.self s'))
    = Some (hand + foldr Z.add 0 (handDelta <$> ops))
  ∧ Double.to_Z (UserModel.goldInBank (UserModel.self s'))
    = Some (bank + foldr Z.add 0 (bankDelta <$> ops))
  ∧ sameButBalances (UserModel.self s') (UserModel.self s)
  ∧ UserModel.objects s' = UserModel.objects s
  ∧ length (UserModel.daoCalls s')
    = (length (UserModel.daoCalls s) + length ops)%nat.
Proof.
  cbv zeta. revert s hand bank.
  induction ops as [|op ops IH]; intros s hand bank Hhand Hbank Hsafe.
  - destruct Hsafe as [Hh Hb]. cbn. rewrite Hhand, Hbank, !Z.add_0_r.
    split_and!; try done; try lia; by apply Double_to_Z_of_Z.
  - destruct Hsafe as (Hh & Hb & Ha & Hrest).
    pose proof (balancesSafe_head _ _ _ Hrest) as [Hh' Hb'].
    change (runGoldOps (op :: ops) s) with (runGoldOps ops (applyGoldOp s op)).
    destruct (IH (applyGoldOp s op) (hand + handDelta op)
                (bank + bankDelta op))
      as (Hgold & Hbanked & Hsame & Hobjects & Hdao); [| |done|].
    { destruct op; cbn [applyGoldOp handDelta];
        unfold UserModel.addGold, UserModel.subtractGold,
          UserModel.addBankedGold, UserModel.subtractBankedGold;
        cbn [UserModel.self UserModel.gold UserModel.set_gold
             UserModel.set_goldInBank]; rewrite Hhand.
      - by apply Double_add_exact.
      - rewrite Z.add_opp_r in *. by apply Double_sub_exact.
      - by rewrite Z.add_0_r.
      - by rewrite Z.add_0_r. }
    { destruct op; cbn [applyGoldOp bankDelta];
        unfold UserModel.addGold, UserModel.subtractGold,
          UserModel.addBankedGold, UserModel.subtractBankedGold;
        cbn [UserModel.self UserModel.goldInBank UserModel.set_gold
             UserModel.set_goldInBank]; rewrite Hbank.
      - by rewrite Z.add_0_r.
      - by rewrite Z.add_0_r.
      - by apply Double_add_exact.
      - rewrite Z.add_opp_r in *. by apply Double_sub_exact. }
    rewrite Hgold, Hbanked, Hobjects, Hdao. rewrite !fmap_cons.
    cbn [foldr length].
    split; [f_equal; lia|]. split; [f_equal; lia|].
    split; [|split].
    + unfold sameButBalances in *. destruct op; cbn in *; intuition congruence.
    + by destruct op.
    + destruct op; cbn; rewrite ?length_app; cbn [length]; lia.
Qed.

Lemma runGoldOps_balance_witness :
  (UserModel.gold (UserModel.self (exampleState [] [])) = Double.of_Z 1000
   ∧ UserModel.goldInBank (UserModel.self (exampleState [] []))
     = Double.of_Z 0
   ∧ balancesSafe 1000 0 exampleOps)
  ∧ Double.to_Z
      (UserModel.gold
         (UserModel.self (runGoldOps exampleOps (exampleState [] []))))
    = Some (-250)
  ∧ Double.to_Z
      (UserModel.goldInBank
         (UserModel.self (runGoldOps exampleOps (exampleState [] []))))
    = Some 100.
Proof.
  set (s := exampleState [] []).
  set (ops := exampleOps).
  assert (Hhand : UserModel.gold (UserModel.self s) = Double.of_Z 1000)
    by reflexivity.
  assert (Hbank : UserModel.goldInBank (UserModel.self s) = Double.of_Z 0)
    by reflexivity.
  assert (Hsafe : balancesSafe 1000 0 ops)
    by (vm_compute; intuition discriminate).
  destruct (runGoldOps_balance ops s 1000 0 Hhand Hbank Hsafe)
    as (Hgold & Hbanked & _).
  split; [by split_and! |]. by split.
Defined.

(** * Fetching users, continued *)

(** X21.  [fetchAll] returns one model for each record the DAO returns, in
    the same order, with the fields of that record. *)
Theorem fetchAll_fields (daoFetchAll : list UserData.t) :
  Forall2 sameFields (UserModel.fetchAll daoFetchAll) daoFetchAll.
Proof.
  unfold UserModel.fetchAll.
  induction daoFetchAll as [|record records IH]; constructor; [|done].
  apply sameFields_new.
Qed.

(** * The controllers *)

Lemma citizens_None σ this :
  UserModel.citizens σ this = None
  ↔ Forall (λ unit, PlayerUnit.type (σ unit) ≠ "CITIZEN")
      (UserModel.units this).
Proof.
  unfold UserModel.citizens.
  rewrite <- (Array_find_None
                (λ unit, PlayerUnit.type (σ unit) = "CITIZEN")).
  destruct (Array_find _ _); cbn; split; done.
Qed.

Section Controllers.
Context {SidebarData : Type}.
Variable daoFetchById : Z → option UserData.t.
Variable reqUser : option string.
Variable reqSidebarData : SidebarData.
Variable format : spec_float → string.
Variable σ : heap.

(** X19.  The overview page looks up user 1 and nothing else.  Without a
    record it answers 404.  With one it throws exactly when a getter it
    calls throws (no CITIZEN unit, negative experience, a [fortLevel]
    outside 1 to 24, a WORKER unit above level 1), and otherwise renders
    the overview of that record. *)
Theorem overviewPage_outcomes :
  let page := Overview.overviewPage daoFetchById reqSidebarData format σ in
  match daoFetchById 1 with
  | None => page = Some (Overview.sendStatus 404)
  | Some record =>
      (page = None ↔ unrenderable σ (UserModel.new record))
      ∧ (¬ unrenderable σ (UserModel.new record) →
         ∃ options,
           page = Some (Overview.render "page/main/overview" options)
           ∧ Overview.displayName options = UserData.displayName record)
  end.
Proof.
  cbv zeta. unfold Overview.overviewPage, UserModel.fetchById.
  destruct (daoFetchById 1) as [record|]; [|done].
  set (user := UserModel.new record). unfold unrenderable.
  pose proof (citizens_None σ user) as Hcitizens.
  pose proof (level_None user) as Hlevel.
  pose proof (xpToNextLevel_None user) as Hxp.
  pose proof (fortHealth_None user) as Hfort.
  pose proof (goldPerTurn_None σ user) as Hgold.
  destruct (UserModel.citizens σ user) as [citizens|];
    [|split; [split; [tauto | done] | tauto]].
  destruct (UserModel.level user) as [level|];
    [|split; [split; [tauto | done] | tauto]].
  destruct (UserModel.xpToNextLevel user) as [xpToNextLevel|];
    [|split; [split; [tauto | done] | tauto]].
  destruct (UserModel.fortHealth user) as [fortHealth|];
    [|split; [split; [tauto | done] | tauto]].
  destruct (UserModel.goldPerTurn σ user) as [goldPerTurn|];
    [|split; [split; [tauto | done] | tauto]].
  cbn [mbind option_bind]. split.
  - split; [done|]. intros [Hc|[Hl|[Hf|Hg]]].
    + by apply Hcitizens in Hc.
    + by apply Hlevel in Hl.
    + by apply Hfort in Hf.
    + assert (Some goldPerTurn = None) by (apply Hgold; tauto). done.
  - intros _. eexists. split; [reflexivity | done].
Qed.

(** X20.  The profile page checks neither [req.user] nor the fetched user
    before it reads them: it throws when the request carries no user, when
    the DAO has no record for the id (where the overview page answers
    404), when the experience is negative, and when [fortLevel] is outside
    1 to 24; in every other case it renders the profile of the record
    under the title of the requesting user. *)
Theorem renderUserProfile_throws userProfileId :
  let page :=
    UserProfile.renderUserProfile daoFetchById reqUser reqSidebarData format
      σ userProfileId in
  let throws :=
    reqUser = None
    ∨ match daoFetchById userProfileId with
      | None => True
      | Some record =>
          UserData.experience record < 0
          ∨ ¬ (1 <= UserData.fortLevel record <= 24)
      end in
  (page = None ↔ throws)
  ∧ (¬ throws →
     ∃ options reqUserDisplayName record,
       page = Some (UserProfile.render "page/main/userProfile" options)
       ∧ reqUser = Some reqUserDisplayName
       ∧ daoFetchById userProfileId = Some record
       ∧ UserProfile.pageTitle options = "Profile " +:+ reqUserDisplayName
       ∧ UserProfile.displayName options = UserData.displayName record).
Proof.
  cbv zeta. unfold UserProfile.renderUserProfile, UserModel.fetchById.
  destruct reqUser as [reqUserDisplayName|]; cbn [mbind option_bind];
    [|split; [split; [by left | done] | tauto]].
  destruct (daoFetchById userProfileId) as [record|];
    cbn [mbind option_bind]; [|split; [split; [by right | done] | tauto]].
  pose proof (level_None (UserModel.new record)) as Hlevel.
  pose proof (Fortifications_None
                (UserModel.fortLevel (UserModel.new record))) as Hfort.
  cbn [UserModel.new UserModel.experience UserModel.fortLevel] in Hlevel, Hfort.
  destruct (UserModel.level (UserModel.new record));
    cbn [mbind option_bind]; [|split; [split; [tauto | done] | tauto]].
  cbn [UserModel.new UserModel.fortLevel].
  destruct (Fortifications !! UserData.fortLevel record);
    cbn [mbind option_bind]; [|split; [split; [tauto | done] | tauto]].
  split.
  - split; [done|]. intros [[=]|[Hl|Hf]];
      [by apply Hlevel in Hl | by apply Hfort in Hf].
  - intros _. by eexists _, _, _.
Qed.

End Controllers.
